(** * Authorization and pricing of a charging session

    A shallow embedding of [src/auth.ts] (the function [authorizeAndPrice])
    and of the document types of the schema file it imports, followed by the
    properties of the decision procedure.

    Conventions of the embedding:
    - a JavaScript [number] is an IEEE 754 binary64 value, here a primitive
      [float]; [*], [<] and [>=] are the IEEE operations, so NaN, the
      infinities and the signed zeros behave as they do in the source;
    - an optional field ([billableType?], [timeRules?]) is an [option];
    - the three Mongoose models are collaborators the function awaits: they
      are a parameter ([Store]), and every awaited call either completes
      normally or throws;
    - [charger.site] is what [populate("site")] left there: the Site document,
      [null] when the reference dangles, or the reference itself on a store
      that does not populate; [toString()] on it gives what each of them
      gives, and throws on [null];
    - the function body runs in a small monad that carries the completion
      (normal or thrown) and the list of collaborator calls performed. *)

From Stdlib Require Import List String Bool Arith Lia ZArith.
From Stdlib Require Import Floats.
Import ListNotations.

Local Open Scope string_scope.
Local Open Scope list_scope.

(** ** JavaScript numbers *)

Module Number.

Definition number : Type := float.

(** [x * y] *)
Definition mul (x y : number) : number := PrimFloat.mul x y.

(** [x < y] *)
Definition lt (x y : number) : bool := PrimFloat.ltb x y.

(** [x >= y]: false as soon as one side is NaN, as [y <= x] is. *)
Definition ge (x y : number) : bool := PrimFloat.leb y x.

(** The literal [0]. *)
Definition zero : number := 0%float.

(** [x] is a number and is not negative (NaN is neither). *)
Definition nonneg (x : number) : Prop := ge x zero = true.

Definition isNaN (x : number) : Prop := Prim2SF x = S754_nan.

(** On the specification side: zero of either sign, a positive finite number
    or plus infinity. *)
Definition SFnonneg (x : spec_float) : bool :=
  match x with
  | S754_zero _ => true
  | S754_infinity s | S754_finite s _ _ => negb s
  | S754_nan => false
  end.

End Number.
Import Number.

(** ** The documents of the schema

    The collections the function reads, and the Site documents that
    [populate("site")] brings in.  A Mongoose [ObjectId] is observed through
    [toString()] alone. *)

Module ObjectId.
Record t : Type := mk { toString : string }.
End ObjectId.

Module AccessType.
Inductive t : Type := PUBLIC | COMMUNAL | PROTECTED | PRIVATE.

(** The string each member of the enum stands for. *)
Definition value (a : t) : string :=
  match a with
  | PUBLIC => "public"
  | COMMUNAL => "communal"
  | PROTECTED => "protected"
  | PRIVATE => "private"
  end.
End AccessType.

Module BillableType.
Inductive t : Type := BILLABLE | NON_BILLABLE.

Definition value (b : t) : string :=
  match b with
  | BILLABLE => "billable"
  | NON_BILLABLE => "non_billable"
  end.
End BillableType.

Module IUserGroup.
Record t : Type := mk {
  _id : ObjectId.t;
  name : string;
  description : option string;
  users : list ObjectId.t;
  accessibleSites : list ObjectId.t
}.
End IUserGroup.

(** A Site document.  [toString] is what [toString()] answers on the
    document: Mongoose's [Document.prototype.toString], the dump that inspect
    makes of the document, and so not the string of its [_id]. *)
Module ISite.
Record t : Type := mk {
  _id : ObjectId.t;
  name : string;
  address : string;
  chargers : list ObjectId.t;
  toString : string
}.
End ISite.

(** What [charger.site] holds once [Charger.findById(chargerId).populate("site")]
    has answered: the Site document the reference points to; [null] when no
    such document exists; or the reference itself, the declared type of the
    field, on a store that leaves the path unpopulated. *)
Module Populated.
Inductive t : Type :=
  | Null
  | Document (doc : ISite.t)
  | Reference (id : ObjectId.t).

(** The [_id] of the site the value stands for. *)
Definition siteId (v : t) : option ObjectId.t :=
  match v with
  | Null => None
  | Document doc => Some (ISite._id doc)
  | Reference id => Some id
  end.
End Populated.

Module ICharger.
Record t : Type := mk {
  _id : ObjectId.t;
  site : Populated.t;
  accessType : AccessType.t;
  billableType : option BillableType.t;
  powerOutput : number;
  tariffs : list ObjectId.t
}.
End ICharger.

(** An element of [ITariff.timeRules]. *)
Module TimeRule.
Record t : Type := mk {
  startHour : number;
  endHour : number;
  rateMultiplier : number
}.
End TimeRule.

Module ITariff.
Record t : Type := mk {
  _id : ObjectId.t;
  charger : ObjectId.t;
  group : ObjectId.t;
  ratePerKwh : number;
  timeRules : option (list TimeRule.t)
}.
End ITariff.

(** A [Date], observed through [getHours()] alone (NaN for an invalid date). *)
Module Date.
Record t : Type := mk { getHours : number }.
End Date.

(** ** The value the function resolves to *)

Module Result.
Record t : Type := mk {
  allowed : bool;
  reason : option string;
  ratePerKwh : option number
}.
End Result.

(** [{ allowed: false, reason }] *)
Definition denied (reason : string) : Result.t :=
  {| Result.allowed := false; Result.reason := Some reason; Result.ratePerKwh := None |}.

(** [{ allowed: true, ratePerKwh }] *)
Definition granted (ratePerKwh : number) : Result.t :=
  {| Result.allowed := true; Result.reason := None; Result.ratePerKwh := Some ratePerKwh |}.

(** ** Effects: completions and the calls made to the outside *)

(** What a [throw] carries: a [TypeError] of the body itself, or whatever a
    collaborator's promise was rejected with. *)
Inductive Thrown : Type :=
  | TypeError (message : string)
  | Rejection (message : string).

Inductive Completion (A : Type) : Type :=
  | Normal (a : A)
  | Throw (e : Thrown).
Arguments Normal {A} a.
Arguments Throw {A} e.

(** The calls that leave the function, in the order they are made. *)
Inductive Call : Type :=
  | ChargerFindById (chargerId : string)
  | UserGroupFind (userId : string)
  | TariffFind (chargerId : string) (groupIn : list ObjectId.t)
  | ConsoleError (e : Thrown).

Definition Eff (A : Type) : Type := (Completion A * list Call)%type.

Definition ret {A} (a : A) : Eff A := (Normal a, []).

Definition throw {A} (e : Thrown) : Eff A := (Throw e, []).

Definition bind {A B} (m : Eff A) (k : A -> Eff B) : Eff B :=
  match m with
  | (Normal a, calls) => let (c, calls') := k a in (c, calls ++ calls')
  | (Throw e, calls) => (Throw e, calls)
  end.

(** [await] of a collaborator's promise: the call is recorded and its outcome
    becomes the completion. *)
Definition await {A} (call : Call) (outcome : Completion A) : Eff A :=
  (outcome, [call]).

(** A computation of the function itself: it makes no call. *)
Definition lift {A} (outcome : Completion A) : Eff A := (outcome, []).

Notation "x <- m ;; k" := (bind m (fun x => k))
  (at level 61, m at next level, right associativity).

(** [xs[i]] followed by a property read: a [TypeError] when [xs[i]] is
    [undefined]. *)
Definition item {A} (xs : list A) (i : nat) : Eff A :=
  match nth_error xs i with
  | Some x => ret x
  | None => throw (TypeError "Cannot read properties of undefined")
  end.

(** The outcome of an [async] function. *)
Inductive Promise (A : Type) : Type :=
  | Resolved (a : A)
  | Rejected (e : Thrown).
Arguments Resolved {A} a.
Arguments Rejected {A} e.

(** ** The collaborators

    [Charger.findById(chargerId).populate("site")],
    [UserGroup.find({ users: userId })] and
    [Tariff.find({ charger: chargerId, group: { $in: ids } })].
    Each is a read of the store; it completes with documents or throws.
    [findById] answers [null] ([None]) for an unknown id; the charger it
    answers has its [site] populated (see [Populated.t]). *)
Record Store : Type := {
  Charger_findById : string -> Completion (option ICharger.t);
  UserGroup_find : string -> Completion (list IUserGroup.t);
  Tariff_find : string -> list ObjectId.t -> Completion (list ITariff.t)
}.

(** ** [authorizeAndPrice] *)

(** [charger.accessType === "private" && charger.billableType === "non_billable"] *)
Definition isPrivateNonBillable (charger : ICharger.t) : bool :=
  String.eqb (AccessType.value (ICharger.accessType charger)) "private"
  && match ICharger.billableType charger with
     | Some b => String.eqb (BillableType.value b) "non_billable"
     | None => false
     end.

(** [xs.some(callback)]: the callback is called on the elements in order
    until it answers true; what it throws is thrown. *)
Fixpoint Array_some {A} (callback : A -> Completion bool) (xs : list A)
  : Completion bool :=
  match xs with
  | [] => Normal false
  | x :: xs' =>
      match callback x with
      | Normal true => Normal true
      | Normal false => Array_some callback xs'
      | Throw e => Throw e
      end
  end.

(** [xs.filter(callback)]: the callback is called on every element in order;
    what it throws is thrown. *)
Fixpoint Array_filter {A} (callback : A -> Completion bool) (xs : list A)
  : Completion (list A) :=
  match xs with
  | [] => Normal []
  | x :: xs' =>
      match callback x with
      | Normal keep =>
          match Array_filter callback xs' with
          | Normal kept => Normal (if keep then x :: kept else kept)
          | Throw e => Throw e
          end
      | Throw e => Throw e
      end
  end.

(** [charger.site.toString()] *)
Definition siteToString (charger : ICharger.t) : Completion string :=
  match ICharger.site charger with
  | Populated.Null =>
      Throw (TypeError "Cannot read properties of null (reading 'toString')")
  | Populated.Document doc => Normal (ISite.toString doc)
  | Populated.Reference id => Normal (ObjectId.toString id)
  end.

(** The callback of [userGroups.filter]: [group.accessibleSites.some(...)]
    with the test [siteId.toString() === charger.site.toString()]. *)
Definition hasSiteAccess (charger : ICharger.t) (group : IUserGroup.t)
  : Completion bool :=
  Array_some
    (fun siteId =>
       match siteToString charger with
       | Normal site => Normal (String.eqb (ObjectId.toString siteId) site)
       | Throw e => Throw e
       end)
    (IUserGroup.accessibleSites group).

(** The groups for which the callback answers true: what the filter keeps
    when it completes ([Array_filter_normal]). *)
Definition authorizedGroups (charger : ICharger.t) (userGroups : list IUserGroup.t)
  : list IUserGroup.t :=
  filter
    (fun group =>
       match hasSiteAccess charger group with
       | Normal true => true
       | _ => false
       end)
    userGroups.

(** The callback of [tariff.timeRules.find]. *)
Definition inWindow (currentHour : number) (rule : TimeRule.t) : bool :=
  ge currentHour (TimeRule.startHour rule) && lt currentHour (TimeRule.endHour rule).

(** The first part of the loop body: the value of [effectiveRate] when the
    comparison with [bestRate] is reached. *)
Definition effectiveRate (tariff : ITariff.t) (time : Date.t) : number :=
  let effectiveRate := ITariff.ratePerKwh tariff in
  match ITariff.timeRules tariff with
  | Some timeRules =>
      let currentHour := Date.getHours time in
      match find (inWindow currentHour) timeRules with
      | Some timeRule => mul effectiveRate (TimeRule.rateMultiplier timeRule)
      | None => effectiveRate
      end
  | None => effectiveRate
  end.

(** One iteration of [for (const tariff of applicableTariffs)], as a function
    of the current [bestRate]. *)
Definition keepLowest (time : Date.t) (bestRate : number) (tariff : ITariff.t) : number :=
  let effectiveRate := effectiveRate tariff time in
  if lt effectiveRate bestRate then effectiveRate else bestRate.

(** The statements of the [try] block. *)
Definition tryBlock (store : Store) (userId chargerId : string) (time : Date.t)
  : Eff Result.t :=
  charger <- await (ChargerFindById chargerId) (Charger_findById store chargerId) ;;
  match charger with
  | None => ret (denied "Charger not found")
  | Some charger =>
    if isPrivateNonBillable charger then ret (granted zero)
    else
      userGroups <- await (UserGroupFind userId) (UserGroup_find store userId) ;;
      if Nat.eqb (List.length userGroups) 0 then ret (denied "User has no group membership")
      else
        authorizedGroups <- lift (Array_filter (hasSiteAccess charger) userGroups) ;;
        if Nat.eqb (List.length authorizedGroups) 0
        then ret (denied "User's groups do not have access to this site")
        else
          let groupIn := map IUserGroup._id authorizedGroups in
          applicableTariffs <-
            await (TariffFind chargerId groupIn) (Tariff_find store chargerId groupIn) ;;
          if Nat.eqb (List.length applicableTariffs) 0
          then ret (denied "No pricing tariff available for this charger")
          else
            first <- item applicableTariffs 0 ;;
            let bestRate :=
              fold_left (keepLowest time) applicableTariffs (ITariff.ratePerKwh first) in
            ret (granted bestRate)
  end.

(** The whole function: the [try] block, and the [catch] clause that logs and
    answers with a denial. *)
Definition authorizeAndPrice (store : Store) (userId chargerId : string) (time : Date.t)
  : Promise Result.t * list Call :=
  match tryBlock store userId chargerId time with
  | (Normal result, calls) => (Resolved result, calls)
  | (Throw error, calls) =>
      (Resolved (denied "System error occurred"), calls ++ [ConsoleError error])
  end.

(** The promise alone. *)
Definition decision (store : Store) (userId chargerId : string) (time : Date.t)
  : Promise Result.t :=
  fst (authorizeAndPrice store userId chargerId time).

(** ** The vocabulary of the properties *)

(** The station is the owner's free charger. *)
Definition privateNonBillable (charger : ICharger.t) : Prop :=
  ICharger.accessType charger = AccessType.PRIVATE
  /\ ICharger.billableType charger = Some BillableType.NON_BILLABLE.

(** The group lists the site of the station: the [_id] of the site is among
    its [accessibleSites].  This is access as the data model has it. *)
Definition listsSite (charger : ICharger.t) (group : IUserGroup.t) : Prop :=
  exists id,
    Populated.siteId (ICharger.site charger) = Some id
    /\ In id (IUserGroup.accessibleSites group).

(** The group passes the site test of the function: one of the ids it lists
    prints as [charger.site] prints.  This is the test the function applies,
    not [listsSite]: the two agree when [charger.site] is the reference
    ([siteAccessible_reference]); a populated document prints as its dump,
    and no group passes unless an id it lists prints as that dump
    ([document_site_is_never_matched]). *)
Definition siteAccessible (charger : ICharger.t) (group : IUserGroup.t) : Prop :=
  exists siteId,
    In siteId (IUserGroup.accessibleSites group)
    /\ siteToString charger = Normal (ObjectId.toString siteId).

(** The hour lies in the rule's half-open interval [[startHour, endHour)]. *)
Definition covers (rule : TimeRule.t) (hour : number) : Prop :=
  PrimFloat.leb (TimeRule.startHour rule) hour = true
  /\ PrimFloat.ltb hour (TimeRule.endHour rule) = true.

(** A tariff whose base rate and multipliers are all non-negative numbers. *)
Definition nonnegTariff (tariff : ITariff.t) : Prop :=
  nonneg (ITariff.ratePerKwh tariff)
  /\ forall rules, ITariff.timeRules tariff = Some rules ->
       Forall (fun rule => nonneg (TimeRule.rateMultiplier rule)) rules.

(** Two stations that differ at most in [accessType] and [billableType]. *)
Definition sameButAccess (c1 c2 : ICharger.t) : Prop :=
  ICharger._id c1 = ICharger._id c2
  /\ ICharger.site c1 = ICharger.site c2
  /\ ICharger.powerOutput c1 = ICharger.powerOutput c2
  /\ ICharger.tariffs c1 = ICharger.tariffs c2.

(** The rate the specification asks for, in its words: the minimum, over the
    applicable tariffs, of their effective rates at the time.  It is a
    candidate that is at or below every candidate (the first one, should
    several be equal as numbers); there is none when there is no tariff, or
    when a candidate is NaN and so compares with nothing. *)
Definition lowestEffectiveRate (time : Date.t) (applicableTariffs : list ITariff.t)
  : option number :=
  let rates := map (fun tariff => effectiveRate tariff time) applicableTariffs in
  find (fun rate => forallb (fun r => PrimFloat.leb rate r) rates) rates.

(** The reasons a denial can carry. *)
Definition denialReasons : list string :=
  [ "Charger not found";
    "User has no group membership";
    "User's groups do not have access to this site";
    "No pricing tariff available for this charger";
    "System error occurred" ].

Definition systemError : Result.t := denied "System error occurred".

(** The runs of [authorizeAndPrice]: what each path through the function
    requires of the store, what it resolves to and what it calls. *)
Inductive Run (store : Store) (userId chargerId : string) (time : Date.t)
  : Promise Result.t * list Call -> Prop :=
  | Run_chargerFault e :
      Charger_findById store chargerId = Throw e ->
      Run store userId chargerId time
          (Resolved systemError, [ChargerFindById chargerId; ConsoleError e])
  | Run_noCharger :
      Charger_findById store chargerId = Normal None ->
      Run store userId chargerId time
          (Resolved (denied "Charger not found"), [ChargerFindById chargerId])
  | Run_free charger :
      Charger_findById store chargerId = Normal (Some charger) ->
      isPrivateNonBillable charger = true ->
      Run store userId chargerId time
          (Resolved (granted zero), [ChargerFindById chargerId])
  | Run_groupFault charger e :
      Charger_findById store chargerId = Normal (Some charger) ->
      isPrivateNonBillable charger = false ->
      UserGroup_find store userId = Throw e ->
      Run store userId chargerId time
          (Resolved systemError,
           [ChargerFindById chargerId; UserGroupFind userId; ConsoleError e])
  | Run_noGroup charger :
      Charger_findById store chargerId = Normal (Some charger) ->
      isPrivateNonBillable charger = false ->
      UserGroup_find store userId = Normal [] ->
      Run store userId chargerId time
          (Resolved (denied "User has no group membership"),
           [ChargerFindById chargerId; UserGroupFind userId])
  | Run_siteFault charger userGroups e :
      Charger_findById store chargerId = Normal (Some charger) ->
      isPrivateNonBillable charger = false ->
      UserGroup_find store userId = Normal userGroups ->
      userGroups <> [] ->
      Array_filter (hasSiteAccess charger) userGroups = Throw e ->
      Run store userId chargerId time
          (Resolved systemError,
           [ChargerFindById chargerId; UserGroupFind userId; ConsoleError e])
  | Run_noSiteAccess charger userGroups :
      Charger_findById store chargerId = Normal (Some charger) ->
      isPrivateNonBillable charger = false ->
      UserGroup_find store userId = Normal userGroups ->
      userGroups <> [] ->
      Array_filter (hasSiteAccess charger) userGroups
      = Normal (authorizedGroups charger userGroups) ->
      authorizedGroups charger userGroups = [] ->
      Run store userId chargerId time
          (Resolved (denied "User's groups do not have access to this site"),
           [ChargerFindById chargerId; UserGroupFind userId])
  | Run_tariffFault charger userGroups e :
      Charger_findById store chargerId = Normal (Some charger) ->
      isPrivateNonBillable charger = false ->
      UserGroup_find store userId = Normal userGroups ->
      Array_filter (hasSiteAccess charger) userGroups
      = Normal (authorizedGroups charger userGroups) ->
      authorizedGroups charger userGroups <> [] ->
      Tariff_find store chargerId
                  (map IUserGroup._id (authorizedGroups charger userGroups)) = Throw e ->
      Run store userId chargerId time
          (Resolved systemError,
           [ChargerFindById chargerId; UserGroupFind userId;
            TariffFind chargerId (map IUserGroup._id (authorizedGroups charger userGroups));
            ConsoleError e])
  | Run_noTariff charger userGroups :
      Charger_findById store chargerId = Normal (Some charger) ->
      isPrivateNonBillable charger = false ->
      UserGroup_find store userId = Normal userGroups ->
      Array_filter (hasSiteAccess charger) userGroups
      = Normal (authorizedGroups charger userGroups) ->
      authorizedGroups charger userGroups <> [] ->
      Tariff_find store chargerId
                  (map IUserGroup._id (authorizedGroups charger userGroups)) = Normal [] ->
      Run store userId chargerId time
          (Resolved (denied "No pricing tariff available for this charger"),
           [ChargerFindById chargerId; UserGroupFind userId;
            TariffFind chargerId (map IUserGroup._id (authorizedGroups charger userGroups))])
  | Run_priced charger userGroups first rest :
      Charger_findById store chargerId = Normal (Some charger) ->
      isPrivateNonBillable charger = false ->
      UserGroup_find store userId = Normal userGroups ->
      Array_filter (hasSiteAccess charger) userGroups
      = Normal (authorizedGroups charger userGroups) ->
      authorizedGroups charger userGroups <> [] ->
      Tariff_find store chargerId
                  (map IUserGroup._id (authorizedGroups charger userGroups))
        = Normal (first :: rest) ->
      Run store userId chargerId time
          (Resolved
             (granted (fold_left (keepLowest time) (first :: rest) (ITariff.ratePerKwh first))),
           [ChargerFindById chargerId; UserGroupFind userId;
            TariffFind chargerId (map IUserGroup._id (authorizedGroups charger userGroups))]).

(** ** Stores used in the examples *)

Module Fixtures.

Definition oid (s : string) : ObjectId.t := ObjectId.mk s.

(** The stores of this module leave [charger.site] unpopulated: it holds
    the reference. *)
Definition ref (s : string) : Populated.t := Populated.Reference (oid s).

Definition hasId (id : string) (o : ObjectId.t) : bool :=
  String.eqb (ObjectId.toString o) id.

(** A store held in memory: the three queries answered over lists of
    documents, none of them failing. *)
Definition memoryStore (chargers : list ICharger.t) (groups : list IUserGroup.t)
           (tariffs : list ITariff.t) : Store :=
  {| Charger_findById := fun chargerId =>
       Normal (find (fun c => hasId chargerId (ICharger._id c)) chargers);
     UserGroup_find := fun userId =>
       Normal (filter (fun g => existsb (hasId userId) (IUserGroup.users g)) groups);
     Tariff_find := fun chargerId groupIn =>
       Normal (filter
                 (fun t => hasId chargerId (ITariff.charger t)
                           && existsb (hasId (ObjectId.toString (ITariff.group t))) groupIn)
                 tariffs) |}.

(** A store none of whose reads succeeds. *)
Definition unreachableStore : Store :=
  {| Charger_findById := fun _ => Throw (Rejection "connection refused");
     UserGroup_find := fun _ => Throw (Rejection "connection refused");
     Tariff_find := fun _ _ => Throw (Rejection "connection refused") |}.

(** A store whose reads succeed until the one named fails. *)
Definition groupsUnreachable (s : Store) : Store :=
  {| Charger_findById := Charger_findById s;
     UserGroup_find := fun _ => Throw (Rejection "connection reset");
     Tariff_find := Tariff_find s |}.

Definition tariffsUnreachable (s : Store) : Store :=
  {| Charger_findById := Charger_findById s;
     UserGroup_find := UserGroup_find s;
     Tariff_find := fun _ _ => Throw (Rejection "connection reset") |}.

Local Open Scope float_scope.

Definition G1 : IUserGroup.t :=
  IUserGroup.mk (oid "g1") "residents" None [oid "u1"; oid "u2"] [oid "s1"].
Definition G2 : IUserGroup.t :=
  IUserGroup.mk (oid "g2") "staff" None [oid "u2"] [oid "s1"; oid "s2"].
Definition G3 : IUserGroup.t :=
  IUserGroup.mk (oid "g3") "visitors" None [oid "u3"] [oid "s2"].

(** A public charger of site s1, a private billable one, and the owner's
    free charger. *)
Definition C1 : ICharger.t :=
  ICharger.mk (oid "c1") (ref "s1") AccessType.PUBLIC None 22 [oid "t1"; oid "t2"].
Definition C2 : ICharger.t :=
  ICharger.mk (oid "c2") (ref "s1") AccessType.PRIVATE (Some BillableType.BILLABLE) 7 [].
Definition C3 : ICharger.t :=
  ICharger.mk (oid "c3") (ref "s1") AccessType.PRIVATE (Some BillableType.NON_BILLABLE) 7 [].

Definition night : TimeRule.t := TimeRule.mk 0 6 0.5.
Definition peak : TimeRule.t := TimeRule.mk 0 23 2.
Definition morning : TimeRule.t := TimeRule.mk 8 12 0.25.
Definition wrapping : TimeRule.t := TimeRule.mk 22 6 0.5.

(** 0.30, as binary64 holds it. *)
Definition rate030 : number := 0x1.3333333333333p-2.

Definition T1 : ITariff.t := ITariff.mk (oid "t1") (oid "c1") (oid "g1") rate030 (Some []).
Definition T2 : ITariff.t := ITariff.mk (oid "t2") (oid "c1") (oid "g2") 10 (Some [night]).

Definition at_ (h : number) : Date.t := Date.mk h.

Definition store1 : Store := memoryStore [C1; C2; C3] [G1; G2; G3] [T1; T2].

(** The same site, with a single tariff that carries a surcharge. *)
Definition T1peak : ITariff.t :=
  ITariff.mk (oid "t1") (oid "c1") (oid "g1") 10 (Some [peak]).
Definition storePeak : Store := memoryStore [C1] [G1] [T1peak].

(** The store of [store1] with the public charger turned private and billable. *)
Definition C1private : ICharger.t :=
  ICharger.mk (oid "c1") (ref "s1") AccessType.PRIVATE (Some BillableType.BILLABLE) 22
              [oid "t1"; oid "t2"].
Definition store1private : Store := memoryStore [C1private; C2; C3] [G1; G2; G3] [T1; T2].

(** A tariff whose first two rules both cover 10 o'clock. *)
Definition T3 : ITariff.t :=
  ITariff.mk (oid "t3") (oid "c1") (oid "g1") 10 (Some [wrapping; morning; peak]).

End Fixtures.

(** ** The bounds of the tariff schema

    [startHour: { type: Number, min: 0, max: 23 }] and
    [endHour: { type: Number, min: 0, max: 23 }] of [TariffSchema]: the
    validators accept a value that is [>= min] and [<= max]. *)
Definition withinSchema (rule : TimeRule.t) : Prop :=
  ge (TimeRule.startHour rule) 0%float = true
  /\ ge 23%float (TimeRule.startHour rule) = true
  /\ ge (TimeRule.endHour rule) 0%float = true
  /\ ge 23%float (TimeRule.endHour rule) = true.

(** Stores and times at the edges of the number type. *)
Module EdgeFixtures.

(** An invalid [Date]: [getHours()] is NaN. *)
Definition invalidDate : Date.t := Date.mk PrimFloat.nan.

(** A tariff of group g1 whose rate is NaN, stored before the tariff of g2. *)
Definition TNaN : ITariff.t :=
  ITariff.mk (Fixtures.oid "t1") (Fixtures.oid "c1") (Fixtures.oid "g1") PrimFloat.nan
             (Some []).
Definition storeNaN : Store :=
  Fixtures.memoryStore [Fixtures.C1] [Fixtures.G1; Fixtures.G2; Fixtures.G3]
                       [TNaN; Fixtures.T2].

(** The station c1 with another identity, power and tariff list, and private
    but billable. *)
Definition C1other : ICharger.t :=
  ICharger.mk (Fixtures.oid "c1") (Fixtures.ref "s1") AccessType.PRIVATE
              (Some BillableType.BILLABLE) 50%float [].
Definition store1other : Store :=
  Fixtures.memoryStore [C1other] [Fixtures.G1; Fixtures.G2; Fixtures.G3]
                       [Fixtures.T1; Fixtures.T2].

(** The store of [Fixtures.store1] where user u1 also belongs to the group
    g3, which has no access to site s1. *)
Definition G3u1 : IUserGroup.t :=
  IUserGroup.mk (Fixtures.oid "g3") "visitors" None
                [Fixtures.oid "u3"; Fixtures.oid "u1"] [Fixtures.oid "s2"].
Definition store1g3 : Store :=
  Fixtures.memoryStore [Fixtures.C1; Fixtures.C2; Fixtures.C3]
                       [Fixtures.G1; Fixtures.G2; G3u1] [Fixtures.T1; Fixtures.T2].

End EdgeFixtures.

(** Stores that populate the site, as [populate("site")] does. *)
Module PopulatedFixtures.

(** The value [populate] puts at [charger.site]: the Site document the
    reference points to, or [null] when the collection holds none. *)
Definition populate (sites : list ISite.t) (charger : ICharger.t) : ICharger.t :=
  match ICharger.site charger with
  | Populated.Reference id =>
      ICharger.mk (ICharger._id charger)
                  (match find (fun s => Fixtures.hasId (ObjectId.toString id) (ISite._id s))
                              sites with
                   | Some doc => Populated.Document doc
                   | None => Populated.Null
                   end)
                  (ICharger.accessType charger) (ICharger.billableType charger)
                  (ICharger.powerOutput charger) (ICharger.tariffs charger)
  | _ => charger
  end.

(** [Fixtures.memoryStore] with the site of the charger populated. *)
Definition populatingStore (sites : list ISite.t) (chargers : list ICharger.t)
           (groups : list IUserGroup.t) (tariffs : list ITariff.t) : Store :=
  {| Charger_findById := fun chargerId =>
       match Charger_findById (Fixtures.memoryStore chargers groups tariffs) chargerId with
       | Normal (Some charger) => Normal (Some (populate sites charger))
       | other => other
       end;
     UserGroup_find := UserGroup_find (Fixtures.memoryStore chargers groups tariffs);
     Tariff_find := Tariff_find (Fixtures.memoryStore chargers groups tariffs) |}.

(** The site s1, printed as a document is. *)
Definition S1 : ISite.t :=
  ISite.mk (Fixtures.oid "s1") "Depot" "1 Main Street"
           [Fixtures.oid "c1"; Fixtures.oid "c2"; Fixtures.oid "c3"]
           "{ _id: new ObjectId('s1'), name: 'Depot', location: { address: '1 Main Street' }, chargers: [ new ObjectId('c1'), new ObjectId('c2'), new ObjectId('c3') ], __v: 0 }".

(** The documents of [Fixtures.store1], the sites populated. *)
Definition store1 : Store :=
  populatingStore [S1] [Fixtures.C1; Fixtures.C2; Fixtures.C3]
                  [Fixtures.G1; Fixtures.G2; Fixtures.G3] [Fixtures.T1; Fixtures.T2].

(** The charger c2 as that store answers it. *)
Definition C2doc : ICharger.t := populate [S1] Fixtures.C2.

(** The same documents, the Site collection empty: the reference of every
    charger dangles. *)
Definition storeDangling : Store :=
  populatingStore [] [Fixtures.C1; Fixtures.C2; Fixtures.C3]
                  [Fixtures.G1; Fixtures.G2; Fixtures.G3] [Fixtures.T1; Fixtures.T2].

Definition C1dangling : ICharger.t := populate [] Fixtures.C1.

End PopulatedFixtures.

(** ** Facts about binary64 comparison and product

    Proved on the specification of the primitive operations ([SpecFloat]). *)

Module NumberFacts.

Lemma SFleb_zero x : SFleb (S754_zero false) x = SFnonneg x.
Proof. destruct x as [s|s| |s m e]; try destruct s; reflexivity. Qed.

Lemma nonneg_spec x : nonneg x <-> SFnonneg (Prim2SF x) = true.
Proof.
  unfold nonneg, ge, zero. rewrite leb_spec.
  change (Prim2SF 0%float) with (S754_zero false).
  now rewrite SFleb_zero.
Qed.

(** Rounding keeps the sign it is given, or signals with NaN. *)
Lemma binary_round_aux_sign prec emax s m e l :
  binary_round_aux prec emax s m e l = S754_nan \/
  SFnonneg (binary_round_aux prec emax s m e l) = negb s \/
  exists s', binary_round_aux prec emax s m e l = S754_zero s'.
Proof.
  unfold binary_round_aux.
  destruct (shr_fexp prec emax m e l) as [mrs' e'].
  destruct (shr_fexp prec emax _ e' loc_Exact) as [mrs'' e''].
  destruct (shr_m mrs'') as [|p|p].
  - right; right; eauto.
  - destruct (Z.leb e'' (emax - prec)); right; left; reflexivity.
  - now left.
Qed.

Lemma SFmul_nonneg prec emax x y :
  SFnonneg x = true -> SFnonneg y = true ->
  SFmul prec emax x y = S754_nan \/ SFnonneg (SFmul prec emax x y) = true.
Proof.
  destruct x as [sx|sx| |sx mx ex], y as [sy|sy| |sy my ey]; cbn [SFnonneg SFmul];
    intros Hx Hy; try discriminate; auto;
    try (apply negb_true_iff in Hx); try (apply negb_true_iff in Hy);
    subst; cbn [xorb negb]; auto.
  destruct (binary_round_aux_sign prec emax false (Z.pos (mx * my)) (ex + ey) loc_Exact)
    as [H|[H|[s' H]]]; auto.
  right. rewrite H. reflexivity.
Qed.

(** The product of two non-negative numbers is non-negative, or is NaN
    (zero times infinity). *)
Lemma mul_nonneg x y : nonneg x -> nonneg y -> nonneg (mul x y) \/ isNaN (mul x y).
Proof.
  rewrite !nonneg_spec. unfold isNaN, mul. rewrite mul_spec. intros Hx Hy.
  destruct (SFmul_nonneg prec emax _ _ Hx Hy); auto.
Qed.

(** NaN is below nothing. *)
Lemma lt_NaN_l x y : isNaN x -> lt x y = false.
Proof. unfold isNaN, lt. rewrite ltb_spec. intros ->. reflexivity. Qed.

(** The order has no cycle [a <= b < c <= a]. *)
Lemma SFcompare_no_cycle a b c :
  SFleb a b = true -> SFltb b c = true -> SFleb c a = true -> False.
Proof.
  unfold SFleb, SFltb.
  destruct a as [sa|sa| |sa ma ea], b as [sb|sb| |sb mb eb], c as [sc|sc| |sc mc ec];
    simpl; try discriminate;
    try destruct sa; try destruct sb; try destruct sc; simpl; try discriminate.
  all: rewrite ?Pos.compare_cont_spec; simpl.
  all: destruct (Z.compare_spec ea eb), (Z.compare_spec eb ec), (Z.compare_spec ec ea);
    try discriminate; try lia.
  all: subst.
  all: destruct (Pos.compare_spec ma mb), (Pos.compare_spec mb mc), (Pos.compare_spec mc ma);
    simpl; try discriminate; try lia.
Qed.

(** No number lies in [[s, e)] when [s >= e]. *)
Lemma empty_interval h s e : ge s e = true -> ge h s = true -> lt h e = true -> False.
Proof.
  unfold ge, lt. rewrite !leb_spec, ltb_spec. intros Hse Hsh Hhe.
  exact (SFcompare_no_cycle _ _ _ Hsh Hhe Hse).
Qed.

Lemma SFltb_trans a b c :
  SFltb a b = true -> SFltb b c = true -> SFltb a c = true.
Proof.
  unfold SFltb.
  destruct a as [sa|sa| |sa ma ea], b as [sb|sb| |sb mb eb], c as [sc|sc| |sc mc ec];
    simpl; try discriminate;
    try destruct sa; try destruct sb; try destruct sc; simpl;
    try discriminate; try reflexivity.
  all: rewrite ?Pos.compare_cont_spec; simpl.
  all: destruct (Z.compare_spec ea eb), (Z.compare_spec eb ec), (Z.compare_spec ea ec);
    try discriminate; try reflexivity; try lia.
  all: subst.
  all: destruct (Pos.compare_spec ma mb), (Pos.compare_spec mb mc), (Pos.compare_spec ma mc);
    simpl; try discriminate; try reflexivity; try lia.
Qed.

Lemma SFltb_irrefl a : SFltb a a = false.
Proof.
  unfold SFltb. destruct a as [s|s| |s m e]; try destruct s; simpl; try reflexivity.
  all: rewrite Z.compare_refl, ?Pos.compare_cont_spec, Pos.compare_refl; reflexivity.
Qed.

Lemma lt_trans x y z : lt x y = true -> lt y z = true -> lt x z = true.
Proof. unfold lt. rewrite !ltb_spec. apply SFltb_trans. Qed.

Lemma lt_irrefl x : lt x x = false.
Proof. unfold lt. rewrite ltb_spec. apply SFltb_irrefl. Qed.

End NumberFacts.

(** ** The parts of the function *)

Lemma isPrivateNonBillable_spec charger :
  isPrivateNonBillable charger = true <-> privateNonBillable charger.
Proof.
  unfold isPrivateNonBillable, privateNonBillable.
  destruct charger as [i s a b p ts]; cbn [ICharger.accessType ICharger.billableType].
  split.
  - intros H. apply andb_prop in H as [Ha Hb].
    destruct a; try discriminate Ha.
    destruct b as [[|]|]; try discriminate Hb.
    split; reflexivity.
  - intros [-> ->]. reflexivity.
Qed.

Lemma isPrivateNonBillable_false charger :
  ~ privateNonBillable charger -> isPrivateNonBillable charger = false.
Proof.
  intros H. destruct (isPrivateNonBillable charger) eqn:E; [|reflexivity].
  apply isPrivateNonBillable_spec in E. contradiction.
Qed.

Lemma toString_inj (a b : ObjectId.t) :
  String.eqb (ObjectId.toString a) (ObjectId.toString b) = true <-> a = b.
Proof.
  destruct a as [x], b as [y]; cbn [ObjectId.toString].
  rewrite String.eqb_eq. split; [intros ->; reflexivity | intros [= ->]; reflexivity].
Qed.

(** [some] with a callback that never throws is [existsb]. *)
Lemma Array_some_normal {A} (callback : A -> Completion bool) (p : A -> bool) xs :
  (forall x, callback x = Normal (p x)) ->
  Array_some callback xs = Normal (existsb p xs).
Proof.
  intros Hcb. induction xs as [|x xs IH]; cbn [Array_some existsb]; [reflexivity|].
  rewrite Hcb. destruct (p x); [reflexivity | exact IH].
Qed.

(** What [filter] answers when it completes. *)
Lemma Array_filter_normal {A} (callback : A -> Completion bool) xs kept :
  Array_filter callback xs = Normal kept ->
  kept = filter (fun x => match callback x with Normal true => true | _ => false end) xs.
Proof.
  revert kept. induction xs as [|x xs IH]; cbn [Array_filter filter]; intros kept H.
  - now injection H as <-.
  - destruct (callback x) as [keep|e]; [|discriminate H].
    destruct (Array_filter callback xs) as [kept'|e]; [|discriminate H].
    injection H as <-. rewrite (IH kept' eq_refl). now destruct keep.
Qed.

(** [filter] completes when its callback never throws. *)
Lemma Array_filter_completes {A} (callback : A -> Completion bool) xs :
  (forall x, In x xs -> exists keep, callback x = Normal keep) ->
  exists kept, Array_filter callback xs = Normal kept.
Proof.
  induction xs as [|x xs IH]; cbn [Array_filter]; intros Hcb; [eauto|].
  destruct (Hcb x (or_introl eq_refl)) as [keep ->].
  destruct IH as [kept ->]; [intros y Hy; apply Hcb; now right|]. eauto.
Qed.

Lemma Array_filter_ext {A} (f g : A -> Completion bool) xs :
  (forall x, f x = g x) -> Array_filter f xs = Array_filter g xs.
Proof.
  intros Hfg. induction xs as [|x xs IH]; cbn [Array_filter]; [reflexivity|].
  now rewrite Hfg, IH.
Qed.

(** The callback on a group, by what [charger.site.toString()] does. *)
Lemma hasSiteAccess_prints charger group site :
  siteToString charger = Normal site ->
  hasSiteAccess charger group
  = Normal (existsb (fun siteId => String.eqb (ObjectId.toString siteId) site)
                    (IUserGroup.accessibleSites group)).
Proof.
  intros Hs. unfold hasSiteAccess. apply Array_some_normal. intros siteId.
  now rewrite Hs.
Qed.

Lemma hasSiteAccess_throws charger group e :
  siteToString charger = Throw e ->
  hasSiteAccess charger group
  = match IUserGroup.accessibleSites group with
    | [] => Normal false
    | _ :: _ => Throw e
    end.
Proof.
  intros Hs. unfold hasSiteAccess.
  destruct (IUserGroup.accessibleSites group) as [|siteId sites]; cbn [Array_some];
    [reflexivity|].
  now rewrite Hs.
Qed.

Lemma hasSiteAccess_spec charger group :
  hasSiteAccess charger group = Normal true <-> siteAccessible charger group.
Proof.
  unfold siteAccessible.
  destruct (siteToString charger) as [site|e] eqn:Hs.
  - rewrite (hasSiteAccess_prints _ _ _ Hs). split.
    + intros [= H]. apply existsb_exists in H as [siteId [Hin Heq]].
      apply String.eqb_eq in Heq. exists siteId. split; [assumption | now rewrite Heq].
    + intros [siteId [Hin [= Heq]]]. f_equal. apply existsb_exists.
      exists siteId. split; [assumption|]. apply String.eqb_eq. now symmetry.
  - rewrite (hasSiteAccess_throws _ _ _ Hs). split.
    + destruct (IUserGroup.accessibleSites group); discriminate.
    + intros [siteId [_ H]]. discriminate H.
Qed.

(** Some authorized group exists exactly when a group of the user passes the
    site test. *)
Lemma authorizedGroups_nonempty charger userGroups :
  authorizedGroups charger userGroups <> [] <->
  exists group, In group userGroups /\ siteAccessible charger group.
Proof.
  unfold authorizedGroups.
  set (keeps := fun group => match hasSiteAccess charger group with
                             | Normal true => true
                             | _ => false
                             end).
  assert (Hkeeps : forall group, keeps group = true <-> siteAccessible charger group).
  { intros group. rewrite <- hasSiteAccess_spec. unfold keeps.
    destruct (hasSiteAccess charger group) as [[|]|e]; split; congruence. }
  split.
  - destruct (filter keeps userGroups) as [|g gs] eqn:E; [easy|].
    intros _. exists g.
    assert (Hin : In g (filter keeps userGroups)) by (rewrite E; now left).
    apply filter_In in Hin as [Hin Hacc]. split; [assumption|]. now apply Hkeeps.
  - intros [g [Hin Hacc]] E.
    assert (Hf : In g (filter keeps userGroups)).
    { apply filter_In. split; [assumption|]. now apply Hkeeps. }
    rewrite E in Hf. contradiction.
Qed.

(** When [charger.site] is not [null] the filter completes, with the
    authorized groups. *)
Lemma filter_completes charger userGroups site :
  siteToString charger = Normal site ->
  Array_filter (hasSiteAccess charger) userGroups
  = Normal (authorizedGroups charger userGroups).
Proof.
  intros Hs.
  destruct (Array_filter_completes (hasSiteAccess charger) userGroups) as [kept Hk].
  { intros group _. rewrite (hasSiteAccess_prints _ _ _ Hs). eauto. }
  rewrite Hk. f_equal. now apply Array_filter_normal.
Qed.

Lemma authorizedGroups_completes charger userGroups :
  authorizedGroups charger userGroups <> [] ->
  Array_filter (hasSiteAccess charger) userGroups
  = Normal (authorizedGroups charger userGroups).
Proof.
  intros Hne. apply authorizedGroups_nonempty in Hne as [group [_ [siteId [_ Hs]]]].
  exact (filter_completes _ _ _ Hs).
Qed.

Lemma siteToString_throws charger e :
  siteToString charger = Throw e <->
  ICharger.site charger = Populated.Null
  /\ e = TypeError "Cannot read properties of null (reading 'toString')".
Proof.
  unfold siteToString. destruct (ICharger.site charger); split;
    try discriminate; try (now intros [H _]).
  - now intros [= <-].
  - now intros [_ ->].
Qed.

Lemma site_prints charger :
  ICharger.site charger <> Populated.Null -> exists site, siteToString charger = Normal site.
Proof.
  unfold siteToString. destruct (ICharger.site charger); [congruence | eauto | eauto].
Qed.

Lemma filter_throws_site charger userGroups e :
  Array_filter (hasSiteAccess charger) userGroups = Throw e ->
  siteToString charger = Throw e
  /\ exists group, In group userGroups /\ IUserGroup.accessibleSites group <> [].
Proof.
  destruct (siteToString charger) as [site|e'] eqn:Hs.
  { rewrite (filter_completes _ _ _ Hs). discriminate. }
  induction userGroups as [|g gs IH]; cbn [Array_filter]; [discriminate|].
  rewrite (hasSiteAccess_throws _ _ _ Hs).
  destruct (IUserGroup.accessibleSites g) as [|siteId sites] eqn:Hsites.
  - destruct (Array_filter (hasSiteAccess charger) gs) as [kept|e'']; [discriminate|].
    intros [= <-]. destruct (IH eq_refl) as [He [group [Hin Hne]]].
    split; [assumption|]. exists group. split; [now right | assumption].
  - intros [= <-]. split; [reflexivity|]. exists g. split; [now left|].
    rewrite Hsites. discriminate.
Qed.

Lemma site_throws_filter charger userGroups e :
  siteToString charger = Throw e ->
  (exists group, In group userGroups /\ IUserGroup.accessibleSites group <> []) ->
  Array_filter (hasSiteAccess charger) userGroups = Throw e.
Proof.
  intros Hs. induction userGroups as [|g gs IH]; intros [group [Hin Hne]]; [destruct Hin|].
  cbn [Array_filter]. rewrite (hasSiteAccess_throws _ _ _ Hs).
  destruct (IUserGroup.accessibleSites g) as [|siteId sites] eqn:Hsites; [|reflexivity].
  destruct Hin as [<-|Hin]; [congruence|].
  rewrite IH; [reflexivity | eauto].
Qed.

(** The filter throws exactly when [charger.site] is [null] and a group of
    the user lists a site: the callback then reads [toString] of [null]. *)
Lemma filter_throws charger userGroups e :
  Array_filter (hasSiteAccess charger) userGroups = Throw e <->
  ICharger.site charger = Populated.Null
  /\ (exists group, In group userGroups /\ IUserGroup.accessibleSites group <> [])
  /\ e = TypeError "Cannot read properties of null (reading 'toString')".
Proof.
  split.
  - intros H. apply filter_throws_site in H as [Hs Hgroup].
    apply siteToString_throws in Hs as [Hnull He]. auto.
  - intros (Hnull & Hgroup & He). apply site_throws_filter; [|assumption].
    now apply siteToString_throws.
Qed.

(** When [charger.site] is the reference, passing the site test is listing
    the site. *)
Lemma siteAccessible_reference charger group id :
  ICharger.site charger = Populated.Reference id ->
  siteAccessible charger group <-> listsSite charger group.
Proof.
  intros Hsite. unfold siteAccessible, listsSite, siteToString. rewrite Hsite.
  cbn [Populated.siteId]. split.
  - intros [siteId [Hin [= Heq]]]. exists id. split; [reflexivity|].
    assert (siteId = id) by (apply toString_inj; rewrite Heq; apply String.eqb_refl).
    now subst.
  - intros [id' [[= <-] Hin]]. now exists id.
Qed.

(** When [charger.site] is the populated document, no group passes the site
    test unless an id it lists prints as the document does. *)
Lemma document_site_is_never_matched charger group doc :
  ICharger.site charger = Populated.Document doc ->
  (forall siteId, In siteId (IUserGroup.accessibleSites group) ->
                  ObjectId.toString siteId <> ISite.toString doc) ->
  ~ siteAccessible charger group.
Proof.
  intros Hsite Hdump [siteId [Hin Hs]].
  unfold siteToString in Hs. rewrite Hsite in Hs. injection Hs as Hs.
  now apply (Hdump siteId Hin).
Qed.

Lemma inWindow_spec hour rule : inWindow hour rule = true <-> covers rule hour.
Proof. unfold inWindow, covers, ge, lt. apply andb_true_iff. Qed.

Lemma inWindow_false hour rule : ~ covers rule hour -> inWindow hour rule = false.
Proof.
  intros H. destruct (inWindow hour rule) eqn:E; [|reflexivity].
  apply inWindow_spec in E. contradiction.
Qed.

(** [find] skips a prefix none of whose elements satisfies the predicate. *)
Lemma find_skip {A} (p : A -> bool) (before after : list A) :
  (forall x, In x before -> p x = false) ->
  find p (before ++ after) = find p after.
Proof.
  induction before as [|x before IH]; intros H; cbn [app find]; [reflexivity|].
  rewrite (H x (or_introl eq_refl)). apply IH. intros y Hy. apply H. now right.
Qed.

Lemma find_none_iff {A} (p : A -> bool) (xs : list A) :
  find p xs = None <-> forall x, In x xs -> p x = false.
Proof.
  split; [apply find_none|].
  intros H. rewrite <- (app_nil_r xs). now rewrite find_skip.
Qed.

(** ** Every call follows one of the runs *)

Lemma authorizeAndPrice_run store userId chargerId time :
  Run store userId chargerId time (authorizeAndPrice store userId chargerId time).
Proof.
  unfold authorizeAndPrice, tryBlock, bind, await, lift.
  destruct (Charger_findById store chargerId) as [[charger|]|e] eqn:Hc;
    [ | now apply Run_noCharger | now apply Run_chargerFault ].
  destruct (isPrivateNonBillable charger) eqn:Hp; [now apply Run_free with (charger := charger)|].
  destruct (UserGroup_find store userId) as [userGroups|e] eqn:Hg;
    [ | now apply Run_groupFault with (charger := charger) ].
  destruct userGroups as [|g gs]; [now apply Run_noGroup with (charger := charger)|].
  cbn [List.length Nat.eqb].
  destruct (Array_filter (hasSiteAccess charger) (g :: gs)) as [kept|e] eqn:Hf;
    [ | now apply Run_siteFault with (charger := charger) (userGroups := g :: gs) ].
  assert (Hk : kept = authorizedGroups charger (g :: gs))
    by exact (Array_filter_normal _ _ _ Hf).
  subst kept.
  destruct (authorizedGroups charger (g :: gs)) as [|a auth] eqn:Ha.
  { rewrite <- Ha in Hf.
    now apply Run_noSiteAccess with (charger := charger) (userGroups := g :: gs). }
  cbn [List.length Nat.eqb].
  destruct (Tariff_find store chargerId (map IUserGroup._id (a :: auth)))
    as [[|first rest]|e] eqn:Ht.
  - rewrite <- Ha in *. apply Run_noTariff with (charger := charger) (userGroups := g :: gs);
      try assumption.
    rewrite Ha. discriminate.
  - rewrite <- Ha in *. cbn -[fold_left].
    apply Run_priced with (charger := charger) (userGroups := g :: gs); try assumption.
    rewrite Ha. discriminate.
  - rewrite <- Ha in *. apply Run_tariffFault with (charger := charger) (userGroups := g :: gs);
      try assumption.
    rewrite Ha. discriminate.
Qed.

Lemma length_nonempty {A} (xs : list A) : xs <> [] -> Nat.eqb (List.length xs) 0 = false.
Proof. destruct xs; [congruence | reflexivity]. Qed.

(** The site test depends on the station through its site alone. *)
Lemma hasSiteAccess_site c1 c2 group :
  ICharger.site c1 = ICharger.site c2 ->
  hasSiteAccess c1 group = hasSiteAccess c2 group.
Proof. intros Hs. unfold hasSiteAccess, siteToString. now rewrite Hs. Qed.

Lemma authorizedGroups_site c1 c2 userGroups :
  ICharger.site c1 = ICharger.site c2 ->
  authorizedGroups c1 userGroups = authorizedGroups c2 userGroups.
Proof.
  intros Hs. unfold authorizedGroups. apply filter_ext. intros g.
  now rewrite (hasSiteAccess_site _ _ g Hs).
Qed.

(** ** The function on the example stores *)

(** A member of one group with access to the site, a tariff at 0.30 without
    time rules: granted at 0.30, after the three reads. *)
Example scenario_single_tariff :
  authorizeAndPrice Fixtures.store1 "u1" "c1" (Fixtures.at_ 12%float)
  = (Resolved (granted Fixtures.rate030),
     [ChargerFindById "c1"; UserGroupFind "u1"; TariffFind "c1" [Fixtures.oid "g1"]]).
Proof. reflexivity. Qed.

(** No group of the user has access to the site. *)
Example scenario_site_access_denied :
  decision Fixtures.store1 "u3" "c1" (Fixtures.at_ 12%float)
  = Resolved (denied "User's groups do not have access to this site").
Proof. reflexivity. Qed.

Example scenario_unknown_charger :
  decision Fixtures.store1 "u1" "c9" (Fixtures.at_ 12%float)
  = Resolved (denied "Charger not found").
Proof. reflexivity. Qed.

(** Base rate 10 and a rule halving it from 0 to 6 o'clock. *)
Example scenario_night_rule :
  effectiveRate Fixtures.T2 (Fixtures.at_ 3%float) = 5%float
  /\ effectiveRate Fixtures.T2 (Fixtures.at_ 12%float) = 10%float.
Proof. split; reflexivity. Qed.

(** Two rules cover 10 o'clock: the one stored first applies. *)
Example scenario_overlap :
  inWindow 10%float Fixtures.morning = true
  /\ inWindow 10%float Fixtures.peak = true
  /\ effectiveRate Fixtures.T3 (Fixtures.at_ 10%float) = 2.5%float.
Proof. repeat split. Qed.

(** An unreachable store: denied, and the fault logged. *)
Example scenario_store_down :
  authorizeAndPrice Fixtures.unreachableStore "u1" "c1" (Fixtures.at_ 12%float)
  = (Resolved systemError,
     [ChargerFindById "c1"; ConsoleError (Rejection "connection refused")]).
Proof. reflexivity. Qed.

Example scenario_groups_down :
  decision (Fixtures.groupsUnreachable Fixtures.store1) "u1" "c1" (Fixtures.at_ 12%float)
  = Resolved systemError
  /\ decision (Fixtures.tariffsUnreachable Fixtures.store1) "u1" "c1" (Fixtures.at_ 12%float)
     = Resolved systemError
  /\ decision (Fixtures.groupsUnreachable Fixtures.store1) "u1" "c3" (Fixtures.at_ 12%float)
     = Resolved (granted zero).
Proof. repeat split. Qed.

(** ** The free charger of the owner *)

(** C3: for a station that the store holds with accessType private and
    billableType non_billable, the call resolves to a grant at rate 0, for
    every user and time; the store is otherwise arbitrary (its group and
    tariff reads may answer anything, or fail), and the only call made is the
    read of the station. *)
Theorem private_non_billable_is_free store userId chargerId time charger :
  Charger_findById store chargerId = Normal (Some charger) ->
  privateNonBillable charger ->
  authorizeAndPrice store userId chargerId time
  = (Resolved (granted zero), [ChargerFindById chargerId]).
Proof.
  intros Hc Hp. apply isPrivateNonBillable_spec in Hp.
  unfold authorizeAndPrice, tryBlock. rewrite Hc.
  unfold bind, await. rewrite Hp. reflexivity.
Qed.

(** ** Denials *)

(** C6: a user who belongs to no group is denied with the reason of a missing
    group membership at every station that exists and is not the owner's free
    charger; the function stops after the read of the groups, before any
    tariff is read. *)
Theorem no_group_is_denied store userId chargerId time charger :
  Charger_findById store chargerId = Normal (Some charger) ->
  ~ privateNonBillable charger ->
  UserGroup_find store userId = Normal [] ->
  authorizeAndPrice store userId chargerId time
  = (Resolved (denied "User has no group membership"),
     [ChargerFindById chargerId; UserGroupFind userId]).
Proof.
  intros Hc Hp Hg. apply isPrivateNonBillable_false in Hp.
  unfold authorizeAndPrice, tryBlock, bind, await, lift.
  rewrite Hc, Hp, Hg. reflexivity.
Qed.

(** When the station exists, is not the owner's free charger, a group of the
    user passes the site test, and no tariff is found for the station and the
    authorized groups, the call resolves to a denial for lack of a pricing
    tariff, and so to no grant at any rate. *)
Lemma no_tariff_is_denied store userId chargerId time charger userGroups :
  Charger_findById store chargerId = Normal (Some charger) ->
  ~ privateNonBillable charger ->
  UserGroup_find store userId = Normal userGroups ->
  (exists group, In group userGroups /\ siteAccessible charger group) ->
  Tariff_find store chargerId (map IUserGroup._id (authorizedGroups charger userGroups))
  = Normal [] ->
  decision store userId chargerId time
  = Resolved (denied "No pricing tariff available for this charger").
Proof.
  intros Hc Hp Hg Hacc Ht. apply isPrivateNonBillable_false in Hp.
  apply authorizedGroups_nonempty in Hacc.
  assert (Hu : userGroups <> []).
  { intros ->. now apply Hacc. }
  unfold decision, authorizeAndPrice, tryBlock, bind, await, lift.
  rewrite Hc, Hp, Hg, (length_nonempty _ Hu),
    (authorizedGroups_completes _ _ Hacc), (length_nonempty _ Hacc), Ht.
  reflexivity.
Qed.

(** ** The access type outside the special case *)

(** C7: two stations that differ only in accessType and billableType, neither
    being private and non-billable, lead to the same outcome (and the same
    calls) for every user and time, the groups and tariffs of the store being
    the same. *)
Theorem accessType_not_distinguished
        store1 store2 userId chargerId time charger1 charger2 :
  Charger_findById store1 chargerId = Normal (Some charger1) ->
  Charger_findById store2 chargerId = Normal (Some charger2) ->
  (forall u, UserGroup_find store1 u = UserGroup_find store2 u) ->
  (forall c ids, Tariff_find store1 c ids = Tariff_find store2 c ids) ->
  sameButAccess charger1 charger2 ->
  ~ privateNonBillable charger1 ->
  ~ privateNonBillable charger2 ->
  authorizeAndPrice store1 userId chargerId time
  = authorizeAndPrice store2 userId chargerId time.
Proof.
  intros Hc1 Hc2 Hg Ht (_ & Hsite & _ & _) Hp1 Hp2.
  apply isPrivateNonBillable_false in Hp1, Hp2.
  unfold authorizeAndPrice, tryBlock, bind, await, lift.
  rewrite Hc1, Hc2, Hp1, Hp2, Hg.
  destruct (UserGroup_find store2 userId) as [userGroups|e]; [|reflexivity].
  rewrite (Array_filter_ext _ _ userGroups
             (fun group => hasSiteAccess_site charger1 charger2 group Hsite)).
  destruct (Nat.eqb (List.length userGroups) 0); [reflexivity|].
  destruct (Array_filter (hasSiteAccess charger2) userGroups) as [kept|e]; [|reflexivity].
  rewrite Ht. reflexivity.
Qed.

Lemma private_non_billable_is_free_witness :
  privateNonBillable Fixtures.C3
  /\ UserGroup_find Fixtures.store1 "u4" = Normal []
  /\ authorizeAndPrice Fixtures.store1 "u4" "c3" (Fixtures.at_ 3%float)
     = (Resolved (granted zero), [ChargerFindById "c3"]).
Proof.
  split; [split; reflexivity|]. split; [reflexivity|].
  apply (private_non_billable_is_free Fixtures.store1 "u4" "c3" (Fixtures.at_ 3%float) Fixtures.C3).
  - reflexivity.
  - split; reflexivity.
Defined.

Lemma no_group_is_denied_witness :
  authorizeAndPrice Fixtures.store1 "u4" "c1" (Fixtures.at_ 3%float)
  = (Resolved (denied "User has no group membership"),
     [ChargerFindById "c1"; UserGroupFind "u4"]).
Proof.
  apply (no_group_is_denied Fixtures.store1 "u4" "c1" (Fixtures.at_ 3%float) Fixtures.C1).
  - reflexivity.
  - intros [H _]. discriminate H.
  - reflexivity.
Defined.

Lemma no_tariff_is_denied_witness :
  decision Fixtures.store1 "u1" "c2" (Fixtures.at_ 3%float)
  = Resolved (denied "No pricing tariff available for this charger").
Proof.
  apply (no_tariff_is_denied Fixtures.store1 "u1" "c2" (Fixtures.at_ 3%float)
                             Fixtures.C2 [Fixtures.G1]).
  - reflexivity.
  - intros [_ H]. discriminate H.
  - reflexivity.
  - exists Fixtures.G1. split; [now left|]. exists (Fixtures.oid "s1"). split; [now left | reflexivity].
  - reflexivity.
Defined.

Lemma accessType_not_distinguished_witness :
  authorizeAndPrice Fixtures.store1 "u2" "c1" (Fixtures.at_ 3%float)
  = authorizeAndPrice Fixtures.store1private "u2" "c1" (Fixtures.at_ 3%float).
Proof.
  apply (accessType_not_distinguished
           Fixtures.store1 Fixtures.store1private "u2" "c1" (Fixtures.at_ 3%float)
           Fixtures.C1 Fixtures.C1private).
  - reflexivity.
  - reflexivity.
  - intros u. reflexivity.
  - intros c ids. reflexivity.
  - repeat split.
  - intros [H _]. discriminate H.
  - intros [_ H]. discriminate H.
Defined.

(** ** The effective rate of a tariff *)

(** C4: the effective rate of a tariff at a time is its base rate times the
    multiplier of the first time rule, in stored order, whose interval
    [[startHour, endHour)] covers the hour of the time; it is the base rate
    itself when no rule covers the hour, and when the tariff has no rules. *)
Theorem effectiveRate_first_match tariff time :
  (forall before rule after,
      ITariff.timeRules tariff = Some (before ++ rule :: after) ->
      (forall r, In r before -> ~ covers r (Date.getHours time)) ->
      covers rule (Date.getHours time) ->
      effectiveRate tariff time
      = mul (ITariff.ratePerKwh tariff) (TimeRule.rateMultiplier rule))
  /\ ((forall rules, ITariff.timeRules tariff = Some rules ->
                     forall r, In r rules -> ~ covers r (Date.getHours time)) ->
      effectiveRate tariff time = ITariff.ratePerKwh tariff).
Proof.
  unfold effectiveRate. split.
  - intros before rule after Hrules Hbefore Hrule. rewrite Hrules.
    rewrite find_skip by (intros r Hr; apply inWindow_false; now apply Hbefore).
    cbn [find]. apply inWindow_spec in Hrule. now rewrite Hrule.
  - intros Hnone. destruct (ITariff.timeRules tariff) as [rules|]; [|reflexivity].
    replace (find (inWindow (Date.getHours time)) rules) with (@None TimeRule.t);
      [reflexivity|].
    symmetry. apply find_none_iff. intros r Hr. apply inWindow_false.
    now apply (Hnone rules eq_refl).
Qed.

(** C9: a rule whose startHour is at or after its endHour covers no hour, so
    it never applies: the effective rate of a tariff is what it is without
    the rule. *)
Theorem non_wrapping_rule_never_applies rule :
  ge (TimeRule.startHour rule) (TimeRule.endHour rule) = true ->
  (forall hour, ~ covers rule hour)
  /\ (forall tariff tariff' before after time,
         ITariff.timeRules tariff = Some (before ++ rule :: after) ->
         ITariff.timeRules tariff' = Some (before ++ after) ->
         ITariff.ratePerKwh tariff' = ITariff.ratePerKwh tariff ->
         effectiveRate tariff time = effectiveRate tariff' time).
Proof.
  intros Hwrap.
  assert (Hnever : forall hour, ~ covers rule hour).
  { intros hour [Hs He]. exact (NumberFacts.empty_interval _ _ _ Hwrap Hs He). }
  split; [exact Hnever|].
  intros tariff tariff' before after time Hrules Hrules' Hrate.
  unfold effectiveRate. rewrite Hrules, Hrules', Hrate.
  replace (find (inWindow (Date.getHours time)) (before ++ rule :: after))
    with (find (inWindow (Date.getHours time)) (before ++ after)); [reflexivity|].
  clear Hrules Hrules'.
  induction before as [|r before IH]; cbn [app find].
  - now rewrite (inWindow_false _ _ (Hnever (Date.getHours time))).
  - destruct (inWindow (Date.getHours time) r); [reflexivity | exact IH].
Qed.

Lemma non_wrapping_rule_never_applies_witness :
  ge 22%float 6%float = true
  /\ (forall hour, ~ covers Fixtures.wrapping hour)
  /\ effectiveRate Fixtures.T3 (Fixtures.at_ 23%float) = 10%float.
Proof.
  split; [reflexivity|].
  destruct (non_wrapping_rule_never_applies Fixtures.wrapping eq_refl) as [Hnever Hdrop].
  split; [exact Hnever|]. reflexivity.
Defined.

(** ** The rate of a grant *)

(** The effective rate of a tariff with non-negative base rate and
    multipliers is non-negative, or NaN (an infinite rate times zero). *)
Lemma effectiveRate_nonneg tariff time :
  nonnegTariff tariff ->
  nonneg (effectiveRate tariff time) \/ isNaN (effectiveRate tariff time).
Proof.
  intros [Hbase Hrules]. unfold effectiveRate.
  destruct (ITariff.timeRules tariff) as [rules|]; [|now left].
  specialize (Hrules rules eq_refl).
  destruct (find (inWindow (Date.getHours time)) rules) as [rule|] eqn:Hfind; [|now left].
  apply find_some in Hfind as [Hin _].
  apply NumberFacts.mul_nonneg; [assumption|].
  rewrite Forall_forall in Hrules. now apply Hrules.
Qed.

(** An iteration of the loop keeps [bestRate] non-negative: NaN is never
    lower than the best rate so far. *)
Lemma keepLowest_nonneg time bestRate tariff :
  nonneg bestRate -> nonnegTariff tariff -> nonneg (keepLowest time bestRate tariff).
Proof.
  intros Hbest Htariff. unfold keepLowest.
  destruct (lt (effectiveRate tariff time) bestRate) eqn:Hlt; [|assumption].
  destruct (effectiveRate_nonneg tariff time Htariff) as [H|H]; [assumption|].
  rewrite (NumberFacts.lt_NaN_l _ bestRate H) in Hlt. discriminate.
Qed.

Lemma bestRate_nonneg time applicableTariffs bestRate :
  nonneg bestRate -> Forall nonnegTariff applicableTariffs ->
  nonneg (fold_left (keepLowest time) applicableTariffs bestRate).
Proof.
  intros Hbest Hall. revert bestRate Hbest.
  induction Hall as [|tariff rest Htariff _ IH]; intros bestRate Hbest; cbn [fold_left].
  - assumption.
  - apply IH. now apply keepLowest_nonneg.
Qed.

(** Destructs the run of a call, naming the outcome [out]. *)
Ltac run_cases store userId chargerId time out :=
  let R := fresh "R" in
  let E := fresh "E" in
  pose proof (authorizeAndPrice_run store userId chargerId time) as R;
  remember (authorizeAndPrice store userId chargerId time) as out eqn:E;
  destruct R.

(** C8: when the call resolves to a grant at rate r, and the tariffs found
    for the station and the authorized groups have non-negative base rates
    and multipliers, r is non-negative; the free grant of the owner's charger
    included. *)
Theorem granted_rate_nonneg store userId chargerId time rate :
  (forall charger userGroups applicableTariffs,
      Charger_findById store chargerId = Normal (Some charger) ->
      UserGroup_find store userId = Normal userGroups ->
      Tariff_find store chargerId (map IUserGroup._id (authorizedGroups charger userGroups))
      = Normal applicableTariffs ->
      Forall nonnegTariff applicableTariffs) ->
  decision store userId chargerId time = Resolved (granted rate) ->
  nonneg rate.
Proof.
  intros Hvalid. unfold decision.
  run_cases store userId chargerId time out; cbn [fst]; intros Hd;
    try discriminate Hd.
  - injection Hd as <-. reflexivity.
  - injection Hd as <-.
    match goal with
    | Hc : Charger_findById _ _ = _, Hg : UserGroup_find _ _ = _,
      Ht : Tariff_find _ _ _ = _ |- _ => specialize (Hvalid _ _ _ Hc Hg Ht)
    end.
    change (nonneg (fold_left (keepLowest time) (first :: rest) (ITariff.ratePerKwh first))).
    apply bestRate_nonneg; [|assumption].
    now apply Forall_inv in Hvalid as [Hbase _].
Qed.

Lemma granted_rate_nonneg_witness :
  decision Fixtures.store1 "u2" "c1" (Fixtures.at_ 3%float)
  = Resolved (granted Fixtures.rate030)
  /\ nonneg Fixtures.rate030.
Proof.
  split; [reflexivity|].
  apply (granted_rate_nonneg Fixtures.store1 "u2" "c1" (Fixtures.at_ 3%float)).
  - intros charger userGroups applicableTariffs Hc Hg.
    injection Hc as <-. injection Hg as <-. intros Ht. injection Ht as <-.
    repeat constructor; try reflexivity;
      intros rules [= <-]; repeat constructor.
  - reflexivity.
Defined.

(** ** Faults of the collaborators *)

(** What makes the try block throw. *)
Lemma tryBlock_charger_throws store userId chargerId time e :
  Charger_findById store chargerId = Throw e ->
  tryBlock store userId chargerId time = (Throw e, [ChargerFindById chargerId]).
Proof. intros Hc. unfold tryBlock, bind, await. now rewrite Hc. Qed.

Lemma tryBlock_groups_throw store userId chargerId time charger e :
  Charger_findById store chargerId = Normal (Some charger) ->
  ~ privateNonBillable charger ->
  UserGroup_find store userId = Throw e ->
  tryBlock store userId chargerId time
  = (Throw e, [ChargerFindById chargerId; UserGroupFind userId]).
Proof.
  intros Hc Hp Hg. apply isPrivateNonBillable_false in Hp.
  unfold tryBlock, bind, await. now rewrite Hc, Hp, Hg.
Qed.

Lemma tryBlock_site_throws store userId chargerId time charger userGroups :
  Charger_findById store chargerId = Normal (Some charger) ->
  ~ privateNonBillable charger ->
  UserGroup_find store userId = Normal userGroups ->
  ICharger.site charger = Populated.Null ->
  (exists group, In group userGroups /\ IUserGroup.accessibleSites group <> []) ->
  tryBlock store userId chargerId time
  = (Throw (TypeError "Cannot read properties of null (reading 'toString')"),
     [ChargerFindById chargerId; UserGroupFind userId]).
Proof.
  intros Hc Hp Hg Hnull Hlists. apply isPrivateNonBillable_false in Hp.
  assert (Hu : userGroups <> []).
  { intros ->. now destruct Hlists as [group [[] _]]. }
  assert (Hf : Array_filter (hasSiteAccess charger) userGroups
               = Throw (TypeError "Cannot read properties of null (reading 'toString')"))
    by (apply filter_throws; auto).
  unfold tryBlock, bind, await, lift.
  now rewrite Hc, Hp, Hg, (length_nonempty _ Hu), Hf.
Qed.

Lemma tryBlock_tariffs_throw store userId chargerId time charger userGroups e :
  Charger_findById store chargerId = Normal (Some charger) ->
  ~ privateNonBillable charger ->
  UserGroup_find store userId = Normal userGroups ->
  (exists group, In group userGroups /\ siteAccessible charger group) ->
  Tariff_find store chargerId
              (map IUserGroup._id (authorizedGroups charger userGroups)) = Throw e ->
  tryBlock store userId chargerId time
  = (Throw e,
     [ChargerFindById chargerId; UserGroupFind userId;
      TariffFind chargerId (map IUserGroup._id (authorizedGroups charger userGroups))]).
Proof.
  intros Hc Hp Hg Hacc Ht. apply isPrivateNonBillable_false in Hp.
  apply authorizedGroups_nonempty in Hacc.
  assert (Hu : userGroups <> []).
  { intros ->. now apply Hacc. }
  unfold tryBlock, bind, await, lift.
  now rewrite Hc, Hp, Hg, (length_nonempty _ Hu),
    (authorizedGroups_completes _ _ Hacc), (length_nonempty _ Hacc), Ht.
Qed.

(** C2, as amended: the call never rejects: for every store, user, station
    and time it resolves to a result; whatever the try block throws, that
    result is the denial for a system error; and so it is when a read of the
    store that the function performs throws, be it the station, the groups
    or the tariffs, and when [charger.site] is [null] and the site test reads
    [toString] of it. *)
Theorem authorizeAndPrice_fail_closed store userId chargerId time :
  exists result,
    decision store userId chargerId time = Resolved result
    /\ (forall e made, tryBlock store userId chargerId time = (Throw e, made) ->
        result = systemError)
    /\ (forall e, Charger_findById store chargerId = Throw e -> result = systemError)
    /\ (forall charger e,
           Charger_findById store chargerId = Normal (Some charger) ->
           ~ privateNonBillable charger ->
           UserGroup_find store userId = Throw e ->
           result = systemError)
    /\ (forall charger userGroups e,
           Charger_findById store chargerId = Normal (Some charger) ->
           ~ privateNonBillable charger ->
           UserGroup_find store userId = Normal userGroups ->
           (exists group, In group userGroups /\ siteAccessible charger group) ->
           Tariff_find store chargerId
                       (map IUserGroup._id (authorizedGroups charger userGroups)) = Throw e ->
           result = systemError)
    /\ (forall charger userGroups,
           Charger_findById store chargerId = Normal (Some charger) ->
           ~ privateNonBillable charger ->
           UserGroup_find store userId = Normal userGroups ->
           ICharger.site charger = Populated.Null ->
           (exists group,
              In group userGroups /\ IUserGroup.accessibleSites group <> []) ->
           result = systemError).
Proof.
  assert (Hcatch : forall e made,
             tryBlock store userId chargerId time = (Throw e, made) ->
             decision store userId chargerId time = Resolved systemError).
  { intros e made Htry. unfold decision, authorizeAndPrice. now rewrite Htry. }
  destruct (tryBlock store userId chargerId time) as [[result|e0] made0] eqn:Htry.
  - exists result. split; [unfold decision, authorizeAndPrice; now rewrite Htry|].
    split; [discriminate|].
    split; [intros e Hc; pose proof (tryBlock_charger_throws store userId chargerId time e Hc);
            congruence|].
    split; [intros charger e Hc Hp Hg;
            pose proof (tryBlock_groups_throw store userId chargerId time charger e Hc Hp Hg);
            congruence|].
    split; [intros charger userGroups e Hc Hp Hg Hacc Ht;
            pose proof (tryBlock_tariffs_throw store userId chargerId time
                                               charger userGroups e Hc Hp Hg Hacc Ht);
            congruence|].
    intros charger userGroups Hc Hp Hg Hnull Hlists.
    pose proof (tryBlock_site_throws store userId chargerId time
                                     charger userGroups Hc Hp Hg Hnull Hlists).
    congruence.
  - exists systemError. split; [exact (Hcatch e0 made0 eq_refl)|].
    repeat split; reflexivity.
Qed.

(** C2 as the specification has it fails at a store that answers malformed
    data without throwing: a tariff whose rate is NaN.  The call grants at NaN; it logs
    nothing and does not answer the denial for a system error. *)
Lemma malformed_rate_is_granted :
  isNaN (ITariff.ratePerKwh EdgeFixtures.TNaN)
  /\ Tariff_find EdgeFixtures.storeNaN "c1"
                 (map IUserGroup._id
                      (authorizedGroups Fixtures.C1 [Fixtures.G1; Fixtures.G2]))
     = Normal [EdgeFixtures.TNaN; Fixtures.T2]
  /\ authorizeAndPrice EdgeFixtures.storeNaN "u2" "c1" (Fixtures.at_ 3%float)
     = (Resolved (granted PrimFloat.nan),
        [ChargerFindById "c1"; UserGroupFind "u2";
         TariffFind "c1" [Fixtures.oid "g1"; Fixtures.oid "g2"]])
  /\ decision EdgeFixtures.storeNaN "u2" "c1" (Fixtures.at_ 3%float)
     <> Resolved systemError.
Proof.
  split; [reflexivity|]. split; [reflexivity|]. split; [reflexivity|].
  intros H. vm_compute in H. discriminate H.
Qed.

(** ** The shape of the result *)

(** C10: the result the call resolves to is well formed: a grant carries a
    rate and no reason, a denial carries one of the five reasons and no
    rate. *)
Theorem result_well_formed store userId chargerId time :
  exists result,
    decision store userId chargerId time = Resolved result
    /\ (Result.allowed result = true ->
        (exists rate, Result.ratePerKwh result = Some rate)
        /\ Result.reason result = None)
    /\ (Result.allowed result = false ->
        (exists reason, Result.reason result = Some reason /\ In reason denialReasons)
        /\ Result.ratePerKwh result = None).
Proof.
  unfold decision.
  run_cases store userId chargerId time out; cbn [fst];
    (eexists; split; [reflexivity|]);
    unfold systemError, denied, granted, denialReasons; cbn;
    (split; intros Hallowed; try discriminate Hallowed);
    (split; [eexists|reflexivity]);
    try reflexivity;
    (split; [reflexivity|]); auto 6.
Qed.

(** ** The lowest rate *)

(** What the loop leaves in [bestRate] is the base rate of the first tariff
    or the effective rate of one of the tariffs. *)
Lemma bestRate_origin time applicableTariffs bestRate :
  fold_left (keepLowest time) applicableTariffs bestRate = bestRate
  \/ exists tariff, In tariff applicableTariffs
                    /\ fold_left (keepLowest time) applicableTariffs bestRate
                       = effectiveRate tariff time.
Proof.
  revert bestRate.
  induction applicableTariffs as [|tariff rest IH]; intros bestRate; cbn [fold_left].
  - now left.
  - destruct (IH (keepLowest time bestRate tariff)) as [H|[t [Hin H]]].
    + rewrite H. unfold keepLowest.
      destruct (lt (effectiveRate tariff time) bestRate).
      * right. exists tariff. split; [now left | reflexivity].
      * now left.
    + right. exists t. split; [now right | assumption].
Qed.

(** The loop only lowers [bestRate]. *)
Lemma bestRate_descends time applicableTariffs bestRate :
  fold_left (keepLowest time) applicableTariffs bestRate = bestRate
  \/ lt (fold_left (keepLowest time) applicableTariffs bestRate) bestRate = true.
Proof.
  revert bestRate.
  induction applicableTariffs as [|tariff rest IH]; intros bestRate; cbn [fold_left].
  - now left.
  - destruct (IH (keepLowest time bestRate tariff)) as [->|Hlow]; unfold keepLowest in *;
      destruct (lt (effectiveRate tariff time) bestRate) eqn:Hlt; auto.
    right. exact (NumberFacts.lt_trans _ _ _ Hlow Hlt).
Qed.

(** No effective rate is below what the loop leaves in [bestRate]. *)
Lemma bestRate_lower_bound time applicableTariffs bestRate tariff :
  In tariff applicableTariffs ->
  lt (effectiveRate tariff time)
     (fold_left (keepLowest time) applicableTariffs bestRate) = false.
Proof.
  revert bestRate.
  induction applicableTariffs as [|t rest IH]; intros bestRate; [intros []|].
  cbn [fold_left]. intros [<-|Hin]; [|now apply IH].
  destruct (lt (effectiveRate t time) (fold_left (keepLowest time) rest (keepLowest time bestRate t)))
    eqn:Hbelow; [|reflexivity].
  exfalso.
  destruct (bestRate_descends time rest (keepLowest time bestRate t)) as [Heq|Hlow].
  - rewrite Heq in Hbelow. unfold keepLowest in Hbelow.
    destruct (lt (effectiveRate t time) bestRate) eqn:Hlt.
    + rewrite NumberFacts.lt_irrefl in Hbelow. discriminate.
    + congruence.
  - pose proof (NumberFacts.lt_trans _ _ _ Hbelow Hlow) as Hcontra.
    unfold keepLowest in Hcontra.
    destruct (lt (effectiveRate t time) bestRate) eqn:Hlt.
    + rewrite NumberFacts.lt_irrefl in Hcontra. discriminate.
    + congruence.
Qed.

(** C1, at a station whose only tariff carries a surcharge at the time of the
    call: the single applicable tariff has base rate 10 and a rule doubling
    it from 0 to 23 o'clock, so its effective rate at 5 o'clock is 20, the
    only candidate and the minimum; the call grants at 10, the base rate,
    which is the effective rate of no candidate. *)
Theorem surcharge_of_first_tariff_is_dropped :
  let time := Fixtures.at_ 5%float in
  let applicableTariffs := [Fixtures.T1peak] in
  Charger_findById Fixtures.storePeak "c1" = Normal (Some Fixtures.C1)
  /\ ~ privateNonBillable Fixtures.C1
  /\ UserGroup_find Fixtures.storePeak "u1" = Normal [Fixtures.G1]
  /\ siteAccessible Fixtures.C1 Fixtures.G1
  /\ Tariff_find Fixtures.storePeak "c1"
                 (map IUserGroup._id (authorizedGroups Fixtures.C1 [Fixtures.G1]))
     = Normal applicableTariffs
  /\ lowestEffectiveRate time applicableTariffs = Some 20%float
  /\ decision Fixtures.storePeak "u1" "c1" time = Resolved (granted 10%float)
  /\ ~ In 10%float (map (fun tariff => effectiveRate tariff time) applicableTariffs).
Proof.
  cbv zeta. split; [reflexivity|]. split; [intros [H _]; discriminate H|].
  split; [reflexivity|].
  split; [exists (Fixtures.oid "s1"); split; [now left | reflexivity]|].
  split; [reflexivity|]. split; [reflexivity|]. split; [reflexivity|].
  intros [H|[]].
  assert (Heq : PrimFloat.eqb (effectiveRate Fixtures.T1peak (Fixtures.at_ 5%float))
                              10%float = true)
    by (rewrite H; reflexivity).
  discriminate Heq.
Qed.

(** ** Further facts about binary64 comparison *)

Module NumberEdge.

Lemma SFcompare_NaN_r x : SFcompare x S754_nan = None.
Proof. destruct x; reflexivity. Qed.

(** Nothing is below NaN, and nothing is at or above it. *)
Lemma lt_NaN_r x y : isNaN y -> lt x y = false.
Proof.
  unfold isNaN, lt. rewrite ltb_spec. intros ->.
  unfold SFltb. now rewrite SFcompare_NaN_r.
Qed.

Lemma ge_NaN_l x y : isNaN x -> ge x y = false.
Proof.
  unfold isNaN, ge. rewrite leb_spec. intros ->.
  unfold SFleb. now rewrite SFcompare_NaN_r.
Qed.

(** Comparing the other way round gives the opposite answer. *)
Lemma SFcompare_antisym x y :
  SFcompare y x = match SFcompare x y with
                  | Some c => Some (CompOpp c)
                  | None => None
                  end.
Proof.
  destruct x as [sx|sx| |sx mx ex], y as [sy|sy| |sy my ey]; cbn;
    try destruct sx; try destruct sy; cbn; try reflexivity.
  all: rewrite (Z.compare_antisym ex ey), !Pos.compare_cont_spec, (Pos.compare_antisym mx my).
  all: destruct (Z.compare ex ey); cbn; try reflexivity.
  all: now destruct (Pos.compare mx my).
Qed.

Lemma SFcompare_none x y : SFcompare x y = None -> x = S754_nan \/ y = S754_nan.
Proof.
  destruct x as [sx|sx| |sx mx ex], y as [sy|sy| |sy my ey]; cbn; auto;
    try destruct sx; try destruct sy; discriminate.
Qed.

(** Two numbers compare: when [y] is not below [x], [x] is at or below [y]. *)
Lemma leb_total x y :
  ~ isNaN x -> ~ isNaN y -> lt y x = false -> PrimFloat.leb x y = true.
Proof.
  unfold isNaN, lt. rewrite ltb_spec, leb_spec. unfold SFltb, SFleb.
  intros Hx Hy. rewrite (SFcompare_antisym (Prim2SF x) (Prim2SF y)).
  destruct (SFcompare (Prim2SF x) (Prim2SF y)) as [[| |]|] eqn:Hc; cbn;
    try reflexivity; try discriminate.
  destruct (SFcompare_none _ _ Hc); contradiction.
Qed.

(** Two numbers each at or below the other are equal as numbers. *)
Lemma leb_antisym x y :
  PrimFloat.leb x y = true -> PrimFloat.leb y x = true -> PrimFloat.eqb x y = true.
Proof.
  rewrite !leb_spec, eqb_spec. unfold SFleb, SFeqb.
  rewrite (SFcompare_antisym (Prim2SF x) (Prim2SF y)).
  destruct (SFcompare (Prim2SF x) (Prim2SF y)) as [[| |]|]; cbn; congruence.
Qed.

End NumberEdge.

(** ** The other denials *)

Lemma isPrivateNonBillable_not charger :
  isPrivateNonBillable charger = false -> ~ privateNonBillable charger.
Proof. intros H Hp. apply isPrivateNonBillable_spec in Hp. congruence. Qed.

Lemma authorizedGroups_empty charger userGroups :
  authorizedGroups charger userGroups = [] <->
  forall group, In group userGroups -> ~ siteAccessible charger group.
Proof.
  split.
  - intros Hnone group Hin Hacc.
    assert (Hne : authorizedGroups charger userGroups <> [])
      by (apply authorizedGroups_nonempty; eauto).
    contradiction.
  - intros Hnone.
    destruct (authorizedGroups charger userGroups) as [|g gs] eqn:E; [reflexivity|].
    assert (Hne : authorizedGroups charger userGroups <> []) by (rewrite E; discriminate).
    apply authorizedGroups_nonempty in Hne as [group [Hin Hacc]].
    now destruct (Hnone group Hin).
Qed.

(** X1: a station the store does not hold is denied with the reason
    "Charger not found", and nothing but the station is read: neither the
    groups of the user nor any tariff. *)
Theorem unknown_charger_is_denied store userId chargerId time :
  Charger_findById store chargerId = Normal None ->
  authorizeAndPrice store userId chargerId time
  = (Resolved (denied "Charger not found"), [ChargerFindById chargerId]).
Proof.
  intros Hc. unfold authorizeAndPrice, tryBlock, bind, await, lift. rewrite Hc. reflexivity.
Qed.

Lemma unknown_charger_is_denied_witness :
  authorizeAndPrice Fixtures.store1 "u1" "c9" (Fixtures.at_ 3%float)
  = (Resolved (denied "Charger not found"), [ChargerFindById "c9"]).
Proof.
  apply (unknown_charger_is_denied Fixtures.store1 "u1" "c9" (Fixtures.at_ 3%float)).
  reflexivity.
Defined.

(** X2: a user who belongs to groups none of which passes the site test is
    denied for lack of site access, at every station that exists, is not the
    owner's free charger and has a site ([charger.site] is not [null]); no
    tariff is read. *)
Theorem no_site_access_is_denied store userId chargerId time charger userGroups :
  Charger_findById store chargerId = Normal (Some charger) ->
  ~ privateNonBillable charger ->
  ICharger.site charger <> Populated.Null ->
  UserGroup_find store userId = Normal userGroups ->
  userGroups <> [] ->
  (forall group, In group userGroups -> ~ siteAccessible charger group) ->
  authorizeAndPrice store userId chargerId time
  = (Resolved (denied "User's groups do not have access to this site"),
     [ChargerFindById chargerId; UserGroupFind userId]).
Proof.
  intros Hc Hp Hsite Hg Hu Hnone. apply isPrivateNonBillable_false in Hp.
  apply authorizedGroups_empty in Hnone.
  apply site_prints in Hsite as [site Hsite].
  unfold authorizeAndPrice, tryBlock, bind, await, lift.
  rewrite Hc, Hp, Hg, (length_nonempty _ Hu), (filter_completes _ _ _ Hsite), Hnone.
  reflexivity.
Qed.

Lemma no_site_access_is_denied_witness :
  authorizeAndPrice Fixtures.store1 "u3" "c1" (Fixtures.at_ 3%float)
  = (Resolved (denied "User's groups do not have access to this site"),
     [ChargerFindById "c1"; UserGroupFind "u3"]).
Proof.
  apply (no_site_access_is_denied Fixtures.store1 "u3" "c1" (Fixtures.at_ 3%float)
                                  Fixtures.C1 [Fixtures.G3]).
  - reflexivity.
  - intros [H _]. discriminate H.
  - discriminate.
  - reflexivity.
  - discriminate.
  - intros group [<-|[]] [siteId [[<-|[]] H]]. discriminate H.
Defined.

(** X3: the reason of a denial names the check that failed.  "Charger not
    found": the store holds no such station.  "User has no group
    membership": the station exists, is not the owner's free charger, and the
    user is in no group.  The lack of site access: the user is in groups and
    none of them passed the site test of the function; that none of them
    lists the site follows when [charger.site] is the unpopulated reference,
    and not otherwise.  The lack of a tariff: a group passed the site test
    and the tariff query for the authorized groups answered nothing. *)
Theorem denial_reason_names_failed_check store userId chargerId time :
  (decision store userId chargerId time = Resolved (denied "Charger not found") ->
   Charger_findById store chargerId = Normal None)
  /\ (decision store userId chargerId time
      = Resolved (denied "User has no group membership") ->
      exists charger,
        Charger_findById store chargerId = Normal (Some charger)
        /\ ~ privateNonBillable charger
        /\ UserGroup_find store userId = Normal [])
  /\ (decision store userId chargerId time
      = Resolved (denied "User's groups do not have access to this site") ->
      exists charger userGroups,
        Charger_findById store chargerId = Normal (Some charger)
        /\ ~ privateNonBillable charger
        /\ UserGroup_find store userId = Normal userGroups
        /\ userGroups <> []
        /\ (forall group, In group userGroups -> ~ siteAccessible charger group)
        /\ (forall id, ICharger.site charger = Populated.Reference id ->
                       forall group, In group userGroups -> ~ listsSite charger group))
  /\ (decision store userId chargerId time
      = Resolved (denied "No pricing tariff available for this charger") ->
      exists charger userGroups,
        Charger_findById store chargerId = Normal (Some charger)
        /\ ~ privateNonBillable charger
        /\ UserGroup_find store userId = Normal userGroups
        /\ (exists group, In group userGroups /\ siteAccessible charger group)
        /\ Tariff_find store chargerId
                       (map IUserGroup._id (authorizedGroups charger userGroups))
           = Normal []).
Proof.
  unfold decision.
  run_cases store userId chargerId time out; cbn [fst];
    unfold systemError, denied, granted;
    repeat split; intros Hd; try discriminate Hd;
    repeat match goal with
    | Hp : isPrivateNonBillable _ = false |- _ => apply isPrivateNonBillable_not in Hp
    | Ha : authorizedGroups ?c ?gs = [] |- _ =>
        pose proof (proj1 (authorizedGroups_empty c gs) Ha); clear Ha
    | Ha : authorizedGroups ?c ?gs <> [] |- _ =>
        pose proof (proj1 (authorizedGroups_nonempty c gs) Ha); clear Ha
    end;
    eauto 10.
  exists charger, userGroups. repeat split; try assumption.
  intros id Hsite group Hin Hlists.
  apply (siteAccessible_reference _ group _ Hsite) in Hlists.
  match goal with
  | Hnone : forall g, In g userGroups -> ~ siteAccessible charger g |- _ =>
      exact (Hnone group Hin Hlists)
  end.
Qed.

(** ** What a system error and a grant tell *)

(** X4: the denial for a system error has a throw behind it: when the call
    resolves to it, one of the three reads has thrown, or [charger.site] is
    [null] and a group of the user lists a site, so that the site test read
    [toString] of [null]; what was thrown was passed to console.error.
    Nothing else in the try block throws: the read of [applicableTariffs[0]]
    is guarded. *)
Theorem system_error_has_a_throw_behind store userId chargerId time :
  decision store userId chargerId time = Resolved systemError ->
  exists e,
    In (ConsoleError e) (snd (authorizeAndPrice store userId chargerId time))
    /\ (Charger_findById store chargerId = Throw e
        \/ UserGroup_find store userId = Throw e
        \/ (exists groupIn, Tariff_find store chargerId groupIn = Throw e)
        \/ exists charger userGroups,
             Charger_findById store chargerId = Normal (Some charger)
             /\ UserGroup_find store userId = Normal userGroups
             /\ ICharger.site charger = Populated.Null
             /\ (exists group,
                    In group userGroups /\ IUserGroup.accessibleSites group <> [])
             /\ e = TypeError "Cannot read properties of null (reading 'toString')").
Proof.
  unfold decision.
  run_cases store userId chargerId time out; cbn [fst snd];
    unfold systemError, denied, granted; intros Hd; try discriminate Hd;
    exists e; (split; [cbn; auto 6|]); eauto.
  do 3 right. exists charger, userGroups.
  match goal with
  | Hf : Array_filter _ _ = Throw _ |- _ => apply filter_throws in Hf as (Hnull & Hgroup & He)
  end.
  auto.
Qed.

Lemma system_error_has_a_throw_behind_witness :
  exists e,
    In (ConsoleError e)
       (snd (authorizeAndPrice PopulatedFixtures.storeDangling "u1" "c1"
                               (Fixtures.at_ 3%float)))
    /\ (Charger_findById PopulatedFixtures.storeDangling "c1" = Throw e
        \/ UserGroup_find PopulatedFixtures.storeDangling "u1" = Throw e
        \/ (exists groupIn,
               Tariff_find PopulatedFixtures.storeDangling "c1" groupIn = Throw e)
        \/ exists charger userGroups,
             Charger_findById PopulatedFixtures.storeDangling "c1" = Normal (Some charger)
             /\ UserGroup_find PopulatedFixtures.storeDangling "u1" = Normal userGroups
             /\ ICharger.site charger = Populated.Null
             /\ (exists group,
                    In group userGroups /\ IUserGroup.accessibleSites group <> [])
             /\ e = TypeError "Cannot read properties of null (reading 'toString')").
Proof.
  apply (system_error_has_a_throw_behind
           PopulatedFixtures.storeDangling "u1" "c1" (Fixtures.at_ 3%float)).
  reflexivity.
Defined.

(** X5: a grant is given only at a station the store holds, and there only
    to the owner's free charger, at rate 0, or to a user one of whose groups
    has access to the site and for whom the tariff query for the authorized
    groups answered at least one tariff. *)
Theorem grant_requires_access_and_tariff store userId chargerId time rate :
  decision store userId chargerId time = Resolved (granted rate) ->
  exists charger,
    Charger_findById store chargerId = Normal (Some charger)
    /\ (privateNonBillable charger /\ rate = zero
        \/ ~ privateNonBillable charger
           /\ exists userGroups applicableTariffs,
               UserGroup_find store userId = Normal userGroups
               /\ (exists group, In group userGroups /\ siteAccessible charger group)
               /\ Tariff_find store chargerId
                              (map IUserGroup._id (authorizedGroups charger userGroups))
                  = Normal applicableTariffs
               /\ applicableTariffs <> []).
Proof.
  unfold decision.
  run_cases store userId chargerId time out; cbn [fst];
    unfold systemError, denied, granted; intros Hd; try discriminate Hd;
    exists charger; (split; [assumption|]).
  - left. split; [now apply isPrivateNonBillable_spec | now injection Hd].
  - right. split; [now apply isPrivateNonBillable_not|].
    exists userGroups, (first :: rest).
    repeat split; try assumption; [now apply authorizedGroups_nonempty | discriminate].
Qed.

Lemma grant_requires_access_and_tariff_witness :
  exists charger,
    Charger_findById Fixtures.store1 "c1" = Normal (Some charger)
    /\ (privateNonBillable charger /\ Fixtures.rate030 = zero
        \/ ~ privateNonBillable charger
           /\ exists userGroups applicableTariffs,
               UserGroup_find Fixtures.store1 "u1" = Normal userGroups
               /\ (exists group, In group userGroups /\ siteAccessible charger group)
               /\ Tariff_find Fixtures.store1 "c1"
                              (map IUserGroup._id (authorizedGroups charger userGroups))
                  = Normal applicableTariffs
               /\ applicableTariffs <> []).
Proof.
  apply (grant_requires_access_and_tariff
           Fixtures.store1 "u1" "c1" (Fixtures.at_ 3%float) Fixtures.rate030).
  reflexivity.
Defined.

(** X6: when tariffs are found, the call grants at a rate that is the base
    rate of the first tariff or the effective rate of one of the tariffs;
    neither the base rate of the first tariff nor the effective rate of any
    tariff is below the granted rate. *)
Theorem granted_rate_bounds store userId chargerId time charger userGroups first rest :
  Charger_findById store chargerId = Normal (Some charger) ->
  ~ privateNonBillable charger ->
  UserGroup_find store userId = Normal userGroups ->
  (exists group, In group userGroups /\ siteAccessible charger group) ->
  Tariff_find store chargerId (map IUserGroup._id (authorizedGroups charger userGroups))
  = Normal (first :: rest) ->
  exists rate,
    decision store userId chargerId time = Resolved (granted rate)
    /\ (rate = ITariff.ratePerKwh first
        \/ exists tariff, In tariff (first :: rest) /\ rate = effectiveRate tariff time)
    /\ lt (ITariff.ratePerKwh first) rate = false
    /\ forall tariff, In tariff (first :: rest) -> lt (effectiveRate tariff time) rate = false.
Proof.
  intros Hc Hp Hg Hacc Ht. apply isPrivateNonBillable_false in Hp.
  apply authorizedGroups_nonempty in Hacc.
  assert (Hu : userGroups <> []).
  { intros ->. now apply Hacc. }
  exists (fold_left (keepLowest time) (first :: rest) (ITariff.ratePerKwh first)).
  split; [|split; [|split]].
  - unfold decision, authorizeAndPrice, tryBlock, bind, await, lift.
    rewrite Hc, Hp, Hg, (length_nonempty _ Hu),
    (authorizedGroups_completes _ _ Hacc), (length_nonempty _ Hacc), Ht.
    reflexivity.
  - apply bestRate_origin.
  - destruct (bestRate_descends time (first :: rest) (ITariff.ratePerKwh first))
      as [->|Hlow]; [apply NumberFacts.lt_irrefl|].
    destruct (lt (ITariff.ratePerKwh first)
                 (fold_left (keepLowest time) (first :: rest) (ITariff.ratePerKwh first)))
      eqn:Hup; [|reflexivity].
    pose proof (NumberFacts.lt_trans _ _ _ Hup Hlow) as Hcycle.
    rewrite NumberFacts.lt_irrefl in Hcycle. discriminate.
  - intros tariff Hin. now apply bestRate_lower_bound.
Qed.

Lemma granted_rate_bounds_witness :
  exists rate,
    decision Fixtures.storePeak "u1" "c1" (Fixtures.at_ 5%float) = Resolved (granted rate)
    /\ (rate = ITariff.ratePerKwh Fixtures.T1peak
        \/ exists tariff,
             In tariff [Fixtures.T1peak]
             /\ rate = effectiveRate tariff (Fixtures.at_ 5%float))
    /\ lt (ITariff.ratePerKwh Fixtures.T1peak) rate = false
    /\ forall tariff,
         In tariff [Fixtures.T1peak] ->
         lt (effectiveRate tariff (Fixtures.at_ 5%float)) rate = false.
Proof.
  apply (granted_rate_bounds Fixtures.storePeak "u1" "c1" (Fixtures.at_ 5%float)
                             Fixtures.C1 [Fixtures.G1] Fixtures.T1peak []).
  - reflexivity.
  - intros [H _]. discriminate H.
  - reflexivity.
  - exists Fixtures.G1. split; [now left|]. exists (Fixtures.oid "s1"). split; [now left | reflexivity].
  - reflexivity.
Defined.

(** ** The time of the call *)

(** X8: the time of the call bears on the rate of a grant and on nothing
    else: at two times, the same calls are made and the results agree on
    allowed and on reason. *)
Theorem time_only_affects_rate store userId chargerId time1 time2 :
  snd (authorizeAndPrice store userId chargerId time1)
  = snd (authorizeAndPrice store userId chargerId time2)
  /\ exists result1 result2,
      decision store userId chargerId time1 = Resolved result1
      /\ decision store userId chargerId time2 = Resolved result2
      /\ Result.allowed result1 = Result.allowed result2
      /\ Result.reason result1 = Result.reason result2.
Proof.
  assert (Hdone : forall (r1 r2 : Result.t) (made : list Call),
             Result.allowed r1 = Result.allowed r2 ->
             Result.reason r1 = Result.reason r2 ->
             snd (Resolved r1, made) = snd (Resolved r2, made)
             /\ exists result1 result2,
                 fst (Resolved r1, made) = Resolved result1
                 /\ fst (Resolved r2, made) = Resolved result2
                 /\ Result.allowed result1 = Result.allowed result2
                 /\ Result.reason result1 = Result.reason result2).
  { intros r1 r2 made Ha Hr. split; [reflexivity|]. now exists r1, r2. }
  unfold decision, authorizeAndPrice, tryBlock, bind, await, lift.
  destruct (Charger_findById store chargerId) as [[charger|]|e];
    [|now apply Hdone..].
  destruct (isPrivateNonBillable charger); [now apply Hdone|].
  destruct (UserGroup_find store userId) as [[|g gs]|e]; [now apply Hdone| |now apply Hdone].
  cbn [List.length Nat.eqb].
  destruct (Array_filter (hasSiteAccess charger) (g :: gs)) as [[|a auth]|e];
    [now apply Hdone| |now apply Hdone].
  cbn [List.length Nat.eqb].
  destruct (Tariff_find store chargerId (map IUserGroup._id (a :: auth)))
    as [[|first rest]|e]; now apply Hdone.
Qed.

(** X9: at an invalid date, whose getHours() is NaN, no time rule applies:
    the effective rate of every tariff is its base rate. *)
Theorem invalid_date_ignores_time_rules tariff time :
  isNaN (Date.getHours time) -> effectiveRate tariff time = ITariff.ratePerKwh tariff.
Proof.
  intros Hnan. unfold effectiveRate.
  destruct (ITariff.timeRules tariff) as [rules|]; [|reflexivity].
  replace (find (inWindow (Date.getHours time)) rules) with (@None TimeRule.t);
    [reflexivity|].
  symmetry. apply find_none_iff. intros rule _.
  unfold inWindow. now rewrite (NumberEdge.ge_NaN_l _ _ Hnan).
Qed.

Lemma invalid_date_ignores_time_rules_witness :
  effectiveRate Fixtures.T3 EdgeFixtures.invalidDate = 10%float.
Proof.
  apply (invalid_date_ignores_time_rules Fixtures.T3 EdgeFixtures.invalidDate).
  reflexivity.
Defined.

(** X10: under the bounds of the tariff schema (endHour at most 23) and the
    half-open interval of the rule test, no rule covers the last hour of the
    day: from 23 o'clock on, the effective rate of a tariff whose rules are
    within the schema is its base rate. *)
Theorem last_hour_keeps_base_rate tariff time :
  (forall rules, ITariff.timeRules tariff = Some rules -> Forall withinSchema rules) ->
  ge (Date.getHours time) 23%float = true ->
  effectiveRate tariff time = ITariff.ratePerKwh tariff.
Proof.
  intros Hschema Hlate. unfold effectiveRate.
  destruct (ITariff.timeRules tariff) as [rules|]; [|reflexivity].
  specialize (Hschema rules eq_refl). rewrite Forall_forall in Hschema.
  replace (find (inWindow (Date.getHours time)) rules) with (@None TimeRule.t);
    [reflexivity|].
  symmetry. apply find_none_iff. intros rule Hin.
  destruct (Hschema rule Hin) as (_ & _ & _ & Hend).
  unfold inWindow.
  destruct (lt (Date.getHours time) (TimeRule.endHour rule)) eqn:Hlt;
    [|apply andb_false_r].
  destruct (NumberFacts.empty_interval _ _ _ Hend Hlate Hlt).
Qed.

Lemma last_hour_keeps_base_rate_witness :
  Forall withinSchema [Fixtures.wrapping; Fixtures.morning; Fixtures.peak]
  /\ effectiveRate Fixtures.T3 (Fixtures.at_ 23%float) = 10%float.
Proof.
  assert (Hschema : Forall withinSchema [Fixtures.wrapping; Fixtures.morning; Fixtures.peak])
    by (repeat constructor).
  split; [exact Hschema|].
  apply (last_hour_keeps_base_rate Fixtures.T3 (Fixtures.at_ 23%float)).
  - intros rules [= <-]. exact Hschema.
  - reflexivity.
Defined.

(** ** A rate that is no number *)

(** NaN as [bestRate] is never replaced: no rate is below it. *)
Lemma bestRate_NaN time applicableTariffs bestRate :
  isNaN bestRate -> fold_left (keepLowest time) applicableTariffs bestRate = bestRate.
Proof.
  intros Hnan.
  induction applicableTariffs as [|tariff rest IH]; cbn [fold_left]; [reflexivity|].
  unfold keepLowest at 2. now rewrite (NumberEdge.lt_NaN_r _ _ Hnan).
Qed.

(** X11: when the base rate of the first tariff found is NaN, the call
    grants at NaN, whatever the rates of the other tariffs: the comparison
    that keeps the lowest rate never replaces NaN. *)
Theorem nan_rate_of_first_tariff_is_granted
        store userId chargerId time charger userGroups first rest :
  Charger_findById store chargerId = Normal (Some charger) ->
  ~ privateNonBillable charger ->
  UserGroup_find store userId = Normal userGroups ->
  (exists group, In group userGroups /\ siteAccessible charger group) ->
  Tariff_find store chargerId (map IUserGroup._id (authorizedGroups charger userGroups))
  = Normal (first :: rest) ->
  isNaN (ITariff.ratePerKwh first) ->
  decision store userId chargerId time = Resolved (granted (ITariff.ratePerKwh first)).
Proof.
  intros Hc Hp Hg Hacc Ht Hnan. apply isPrivateNonBillable_false in Hp.
  apply authorizedGroups_nonempty in Hacc.
  assert (Hu : userGroups <> []).
  { intros ->. now apply Hacc. }
  unfold decision, authorizeAndPrice, tryBlock, bind, await, lift.
  rewrite Hc, Hp, Hg, (length_nonempty _ Hu),
    (authorizedGroups_completes _ _ Hacc), (length_nonempty _ Hacc), Ht.
  cbn -[fold_left]. now rewrite (bestRate_NaN _ _ _ Hnan).
Qed.

Lemma nan_rate_of_first_tariff_is_granted_witness :
  decision EdgeFixtures.storeNaN "u2" "c1" (Fixtures.at_ 3%float)
  = Resolved (granted PrimFloat.nan).
Proof.
  apply (nan_rate_of_first_tariff_is_granted
           EdgeFixtures.storeNaN "u2" "c1" (Fixtures.at_ 3%float) Fixtures.C1
           [Fixtures.G1; Fixtures.G2] EdgeFixtures.TNaN [Fixtures.T2]).
  - reflexivity.
  - intros [H _]. discriminate H.
  - reflexivity.
  - exists Fixtures.G1. split; [now left|]. exists (Fixtures.oid "s1"). split; [now left | reflexivity].
  - reflexivity.
  - reflexivity.
Defined.

(** ** What the decision depends on *)

(** X12: of a station that is not the owner's free charger, the function
    uses the site and nothing else: its identity, power output and own list
    of tariffs are never read, so two such stations of one site lead to the
    same outcome and the same calls. *)
Theorem only_site_of_charger_matters
        store1 store2 userId chargerId time charger1 charger2 :
  Charger_findById store1 chargerId = Normal (Some charger1) ->
  Charger_findById store2 chargerId = Normal (Some charger2) ->
  (forall u, UserGroup_find store1 u = UserGroup_find store2 u) ->
  (forall c ids, Tariff_find store1 c ids = Tariff_find store2 c ids) ->
  ICharger.site charger1 = ICharger.site charger2 ->
  ~ privateNonBillable charger1 ->
  ~ privateNonBillable charger2 ->
  authorizeAndPrice store1 userId chargerId time
  = authorizeAndPrice store2 userId chargerId time.
Proof.
  intros Hc1 Hc2 Hg Ht Hsite Hp1 Hp2.
  apply isPrivateNonBillable_false in Hp1, Hp2.
  unfold authorizeAndPrice, tryBlock, bind, await, lift.
  rewrite Hc1, Hc2, Hp1, Hp2, Hg.
  destruct (UserGroup_find store2 userId) as [userGroups|e]; [|reflexivity].
  rewrite (Array_filter_ext _ _ userGroups
             (fun group => hasSiteAccess_site charger1 charger2 group Hsite)).
  destruct (Nat.eqb (List.length userGroups) 0); [reflexivity|].
  destruct (Array_filter (hasSiteAccess charger2) userGroups) as [kept|e]; [|reflexivity].
  rewrite Ht. reflexivity.
Qed.

Lemma only_site_of_charger_matters_witness :
  authorizeAndPrice Fixtures.store1 "u2" "c1" (Fixtures.at_ 3%float)
  = authorizeAndPrice EdgeFixtures.store1other "u2" "c1" (Fixtures.at_ 3%float).
Proof.
  apply (only_site_of_charger_matters
           Fixtures.store1 EdgeFixtures.store1other "u2" "c1" (Fixtures.at_ 3%float)
           Fixtures.C1 EdgeFixtures.C1other).
  - reflexivity.
  - reflexivity.
  - intros u. reflexivity.
  - intros c ids. reflexivity.
  - reflexivity.
  - intros [H _]. discriminate H.
  - intros [_ H]. discriminate H.
Defined.

(** X13: the groups of the user that do not pass the site test do not bear
    on the result, at a station that has a site ([charger.site] is not
    [null]): two lists of groups, neither empty, with the same authorized
    groups lead to the same result. *)
Theorem groups_without_access_are_irrelevant
        store1 store2 userId1 userId2 chargerId time charger userGroups1 userGroups2 :
  Charger_findById store1 chargerId = Normal (Some charger) ->
  Charger_findById store2 chargerId = Normal (Some charger) ->
  ICharger.site charger <> Populated.Null ->
  (forall c ids, Tariff_find store1 c ids = Tariff_find store2 c ids) ->
  UserGroup_find store1 userId1 = Normal userGroups1 ->
  UserGroup_find store2 userId2 = Normal userGroups2 ->
  userGroups1 <> [] ->
  userGroups2 <> [] ->
  authorizedGroups charger userGroups1 = authorizedGroups charger userGroups2 ->
  decision store1 userId1 chargerId time = decision store2 userId2 chargerId time.
Proof.
  intros Hc1 Hc2 Hsite Ht Hg1 Hg2 Hu1 Hu2 Hauth.
  apply site_prints in Hsite as [site Hsite].
  unfold decision, authorizeAndPrice, tryBlock, bind, await, lift.
  rewrite Hc1, Hc2, Hg1, Hg2, (length_nonempty _ Hu1), (length_nonempty _ Hu2),
    !(filter_completes _ _ _ Hsite), Hauth, Ht.
  destruct (isPrivateNonBillable charger); [reflexivity|].
  destruct (Nat.eqb (List.length (authorizedGroups charger userGroups2)) 0); [reflexivity|].
  destruct (Tariff_find store2 chargerId _) as [tariffs|e]; [|reflexivity].
  destruct (Nat.eqb (List.length tariffs) 0); [reflexivity|].
  destruct (item tariffs 0) as [[first|e] made]; reflexivity.
Qed.

Lemma groups_without_access_are_irrelevant_witness :
  UserGroup_find Fixtures.store1 "u1" = Normal [Fixtures.G1]
  /\ UserGroup_find EdgeFixtures.store1g3 "u1" = Normal [Fixtures.G1; EdgeFixtures.G3u1]
  /\ decision Fixtures.store1 "u1" "c1" (Fixtures.at_ 3%float)
     = decision EdgeFixtures.store1g3 "u1" "c1" (Fixtures.at_ 3%float).
Proof.
  split; [reflexivity|]. split; [reflexivity|].
  apply (groups_without_access_are_irrelevant
           Fixtures.store1 EdgeFixtures.store1g3 "u1" "u1" "c1" (Fixtures.at_ 3%float)
           Fixtures.C1 [Fixtures.G1] [Fixtures.G1; EdgeFixtures.G3u1]).
  - reflexivity.
  - reflexivity.
  - discriminate.
  - intros c ids. reflexivity.
  - reflexivity.
  - reflexivity.
  - discriminate.
  - discriminate.
  - reflexivity.
Defined.

(** ** The calls the function makes *)

(** The authorized groups are the groups of the user that pass the site
    test. *)
Lemma authorizedGroups_In charger userGroups group :
  In group (authorizedGroups charger userGroups) <->
  In group userGroups /\ siteAccessible charger group.
Proof.
  unfold authorizedGroups. rewrite filter_In, <- hasSiteAccess_spec.
  destruct (hasSiteAccess charger group) as [[|]|e]; intuition congruence.
Qed.

(** X14: tariffs are read for authorized groups only: every tariff query the
    function makes is for the station of the call, which exists and is not
    the owner's free charger, and for a non-empty list of identifiers, each
    the identifier of a group of the user that has access to the site. *)
Theorem tariffs_read_for_authorized_groups_only store userId chargerId time c groupIn :
  In (TariffFind c groupIn) (snd (authorizeAndPrice store userId chargerId time)) ->
  c = chargerId
  /\ groupIn <> []
  /\ exists charger userGroups,
      Charger_findById store chargerId = Normal (Some charger)
      /\ ~ privateNonBillable charger
      /\ UserGroup_find store userId = Normal userGroups
      /\ forall id, In id groupIn ->
           exists group,
             In group userGroups /\ siteAccessible charger group
             /\ IUserGroup._id group = id.
Proof.
  assert (Hids : forall charger userGroups id,
             In id (map IUserGroup._id (authorizedGroups charger userGroups)) ->
             exists group,
               In group userGroups /\ siteAccessible charger group
               /\ IUserGroup._id group = id).
  { intros charger userGroups id Hin.
    apply in_map_iff in Hin as [group [Hid Hin]].
    apply authorizedGroups_In in Hin as [Hin Hacc].
    now exists group. }
  assert (Hmap : forall charger userGroups,
             authorizedGroups charger userGroups <> [] ->
             map IUserGroup._id (authorizedGroups charger userGroups) <> []).
  { intros charger userGroups Hne Hnil. apply map_eq_nil in Hnil. contradiction. }
  run_cases store userId chargerId time out; cbn [snd In]; intros Hin;
    repeat match goal with
    | H : _ \/ _ |- _ => destruct H as [H|H]
    | H : False |- _ => destruct H
    | H : _ = TariffFind _ _ |- _ => try discriminate H; injection H as <- <-
    end;
    (split; [reflexivity|]); (split; [now apply Hmap|]);
    exists charger, userGroups;
    repeat split; try assumption; try (now apply isPrivateNonBillable_not);
    apply Hids.
Qed.

Lemma tariffs_read_for_authorized_groups_only_witness :
  "c1" = "c1"
  /\ [Fixtures.oid "g1"] <> []
  /\ exists charger userGroups,
      Charger_findById EdgeFixtures.store1g3 "c1" = Normal (Some charger)
      /\ ~ privateNonBillable charger
      /\ UserGroup_find EdgeFixtures.store1g3 "u1" = Normal userGroups
      /\ forall id, In id [Fixtures.oid "g1"] ->
           exists group,
             In group userGroups /\ siteAccessible charger group
             /\ IUserGroup._id group = id.
Proof.
  apply (tariffs_read_for_authorized_groups_only
           EdgeFixtures.store1g3 "u1" "c1" (Fixtures.at_ 3%float) "c1" [Fixtures.oid "g1"]).
  right. right. left. reflexivity.
Defined.

(** X15: the function makes at most three reads, each at most once and in
    the order station, groups, tariffs, always starting with the station; the
    only other call is one console.error, made last, after a read that
    threw. *)
Theorem calls_follow_protocol store userId chargerId time :
  exists n groupIn fault,
    1 <= n <= 3
    /\ snd (authorizeAndPrice store userId chargerId time)
       = firstn n [ChargerFindById chargerId; UserGroupFind userId;
                   TariffFind chargerId groupIn] ++ fault
    /\ (fault = [] \/ exists e, fault = [ConsoleError e]).
Proof.
  run_cases store userId chargerId time out; cbn [snd].
  - exists 1, [], [ConsoleError e]. split; [lia|]. split; [reflexivity|eauto].
  - exists 1, [], []. split; [lia|]. split; [reflexivity|now left].
  - exists 1, [], []. split; [lia|]. split; [reflexivity|now left].
  - exists 2, [], [ConsoleError e]. split; [lia|]. split; [reflexivity|eauto].
  - exists 2, [], []. split; [lia|]. split; [reflexivity|now left].
  - exists 2, [], [ConsoleError e]. split; [lia|]. split; [reflexivity|eauto].
  - exists 2, [], []. split; [lia|]. split; [reflexivity|now left].
  - exists 3, (map IUserGroup._id (authorizedGroups charger userGroups)), [ConsoleError e].
    split; [lia|]. split; [reflexivity|eauto].
  - exists 3, (map IUserGroup._id (authorizedGroups charger userGroups)), [].
    split; [lia|]. split; [reflexivity|now left].
  - exists 3, (map IUserGroup._id (authorizedGroups charger userGroups)), [].
    split; [lia|]. split; [reflexivity|now left].
Qed.

(** ** The base rate of the first tariff *)

(** [bestRate] stays where it starts when no effective rate is below it. *)
Lemma bestRate_kept time applicableTariffs bestRate :
  (forall tariff, In tariff applicableTariffs ->
                  lt (effectiveRate tariff time) bestRate = false) ->
  fold_left (keepLowest time) applicableTariffs bestRate = bestRate.
Proof.
  induction applicableTariffs as [|tariff rest IH]; intros Hnone; cbn [fold_left];
    [reflexivity|].
  unfold keepLowest at 2. rewrite (Hnone tariff (or_introl eq_refl)).
  apply IH. intros t Hin. apply Hnone. now right.
Qed.

(** X16: when no tariff has an effective rate below the base rate of the
    first tariff, the call grants at that base rate, also when the time rules
    raise the effective rate of the first tariff itself above it. *)
Theorem base_rate_of_first_tariff_is_granted
        store userId chargerId time charger userGroups first rest :
  Charger_findById store chargerId = Normal (Some charger) ->
  ~ privateNonBillable charger ->
  UserGroup_find store userId = Normal userGroups ->
  (exists group, In group userGroups /\ siteAccessible charger group) ->
  Tariff_find store chargerId (map IUserGroup._id (authorizedGroups charger userGroups))
  = Normal (first :: rest) ->
  (forall tariff, In tariff (first :: rest) ->
                  lt (effectiveRate tariff time) (ITariff.ratePerKwh first) = false) ->
  decision store userId chargerId time = Resolved (granted (ITariff.ratePerKwh first)).
Proof.
  intros Hc Hp Hg Hacc Ht Hnone. apply isPrivateNonBillable_false in Hp.
  apply authorizedGroups_nonempty in Hacc.
  assert (Hu : userGroups <> []).
  { intros ->. now apply Hacc. }
  unfold decision, authorizeAndPrice, tryBlock, bind, await, lift.
  rewrite Hc, Hp, Hg, (length_nonempty _ Hu),
    (authorizedGroups_completes _ _ Hacc), (length_nonempty _ Hacc), Ht.
  cbn -[fold_left]. now rewrite (bestRate_kept _ _ _ Hnone).
Qed.

Lemma base_rate_of_first_tariff_is_granted_witness :
  lt (ITariff.ratePerKwh Fixtures.T1peak)
     (effectiveRate Fixtures.T1peak (Fixtures.at_ 5%float)) = true
  /\ decision Fixtures.storePeak "u1" "c1" (Fixtures.at_ 5%float)
     = Resolved (granted (ITariff.ratePerKwh Fixtures.T1peak)).
Proof.
  split; [reflexivity|].
  apply (base_rate_of_first_tariff_is_granted
           Fixtures.storePeak "u1" "c1" (Fixtures.at_ 5%float) Fixtures.C1
           [Fixtures.G1] Fixtures.T1peak []).
  - reflexivity.
  - intros [H _]. discriminate H.
  - reflexivity.
  - exists Fixtures.G1. split; [now left|]. exists (Fixtures.oid "s1"). split; [now left | reflexivity].
  - reflexivity.
  - intros tariff [<-|[]]. reflexivity.
Defined.

(** ** The ends of a time window *)

Lemma SFleb_refl x y : SFltb x y = true -> SFleb x x = true.
Proof.
  unfold SFltb, SFleb.
  destruct x as [s|s| |s m e]; try destruct s; cbn;
    rewrite ?Z.compare_refl, ?Pos.compare_cont_spec, ?Pos.compare_refl;
    try reflexivity; destruct y; discriminate.
Qed.

(** X17: a time window takes in its startHour and leaves out its endHour: a
    rule with startHour below endHour applies at startHour o'clock and does
    not apply at endHour o'clock. *)
Theorem window_is_half_open rule :
  lt (TimeRule.startHour rule) (TimeRule.endHour rule) = true ->
  inWindow (TimeRule.startHour rule) rule = true
  /\ inWindow (TimeRule.endHour rule) rule = false.
Proof.
  intros Hlt. unfold inWindow. split.
  - rewrite Hlt, andb_true_r. unfold ge. rewrite leb_spec.
    unfold lt in Hlt. rewrite ltb_spec in Hlt. exact (SFleb_refl _ _ Hlt).
  - rewrite NumberFacts.lt_irrefl. apply andb_false_r.
Qed.

Lemma window_is_half_open_witness :
  inWindow 0%float Fixtures.night = true /\ inWindow 6%float Fixtures.night = false.
Proof.
  apply (window_is_half_open Fixtures.night). reflexivity.
Defined.

(** ** The site test on a populated site *)

(** X18: at a station whose site is populated, every user who is in a group
    is denied for lack of site access, whatever the groups list, as long as
    no id they list prints as the document does (a document prints as its
    dump); no tariff is read. *)
Theorem populated_site_is_denied store userId chargerId time charger doc userGroups :
  Charger_findById store chargerId = Normal (Some charger) ->
  ~ privateNonBillable charger ->
  ICharger.site charger = Populated.Document doc ->
  UserGroup_find store userId = Normal userGroups ->
  userGroups <> [] ->
  (forall group siteId,
      In group userGroups -> In siteId (IUserGroup.accessibleSites group) ->
      ObjectId.toString siteId <> ISite.toString doc) ->
  authorizeAndPrice store userId chargerId time
  = (Resolved (denied "User's groups do not have access to this site"),
     [ChargerFindById chargerId; UserGroupFind userId]).
Proof.
  intros Hc Hp Hsite Hg Hu Hdump. apply isPrivateNonBillable_false in Hp.
  assert (Hnone : authorizedGroups charger userGroups = []).
  { apply authorizedGroups_empty. intros group Hin.
    apply (document_site_is_never_matched _ _ doc Hsite).
    intros siteId. now apply Hdump. }
  assert (Hs : siteToString charger = Normal (ISite.toString doc))
    by (unfold siteToString; now rewrite Hsite).
  unfold authorizeAndPrice, tryBlock, bind, await, lift.
  rewrite Hc, Hp, Hg, (length_nonempty _ Hu), (filter_completes _ _ _ Hs), Hnone.
  reflexivity.
Qed.

Lemma populated_site_is_denied_witness :
  listsSite PopulatedFixtures.C2doc Fixtures.G1
  /\ authorizeAndPrice PopulatedFixtures.store1 "u1" "c2" (Fixtures.at_ 3%float)
     = (Resolved (denied "User's groups do not have access to this site"),
        [ChargerFindById "c2"; UserGroupFind "u1"]).
Proof.
  split; [exists (Fixtures.oid "s1"); split; [reflexivity | now left]|].
  apply (populated_site_is_denied
           PopulatedFixtures.store1 "u1" "c2" (Fixtures.at_ 3%float)
           PopulatedFixtures.C2doc PopulatedFixtures.S1 [Fixtures.G1]).
  - reflexivity.
  - intros [_ H]. discriminate H.
  - reflexivity.
  - reflexivity.
  - discriminate.
  - intros group siteId [<-|[]] [<-|[]] H. vm_compute in H. discriminate H.
Defined.

(** X19: at a station whose site reference dangles ([charger.site] is
    [null]), a user one of whose groups lists any site gets the denial for a
    system error: the site test throws a TypeError, which is logged; no
    tariff is read. *)
Theorem dangling_site_is_a_system_error store userId chargerId time charger userGroups :
  Charger_findById store chargerId = Normal (Some charger) ->
  ~ privateNonBillable charger ->
  UserGroup_find store userId = Normal userGroups ->
  ICharger.site charger = Populated.Null ->
  (exists group, In group userGroups /\ IUserGroup.accessibleSites group <> []) ->
  authorizeAndPrice store userId chargerId time
  = (Resolved systemError,
     [ChargerFindById chargerId; UserGroupFind userId;
      ConsoleError (TypeError "Cannot read properties of null (reading 'toString')")]).
Proof.
  intros Hc Hp Hg Hnull Hlists. unfold authorizeAndPrice.
  now rewrite (tryBlock_site_throws store userId chargerId time charger userGroups
                                    Hc Hp Hg Hnull Hlists).
Qed.

Lemma dangling_site_is_a_system_error_witness :
  authorizeAndPrice PopulatedFixtures.storeDangling "u1" "c1" (Fixtures.at_ 3%float)
  = (Resolved systemError,
     [ChargerFindById "c1"; UserGroupFind "u1";
      ConsoleError (TypeError "Cannot read properties of null (reading 'toString')")]).
Proof.
  apply (dangling_site_is_a_system_error
           PopulatedFixtures.storeDangling "u1" "c1" (Fixtures.at_ 3%float)
           PopulatedFixtures.C1dangling [Fixtures.G1]).
  - reflexivity.
  - intros [H _]. discriminate H.
  - reflexivity.
  - reflexivity.
  - exists Fixtures.G1. split; [now left | discriminate].
Defined.

(** C5, at a store that populates the site: the station c2 exists (private
    and billable), its site is the document of s1, the user u1 belongs to
    the group g1, which lists s1, and no tariff matches c2 and g1; the call
    answers the denial for lack of site access, where the specification has the
    denial for lack of a tariff: the site test compares the ids the group
    lists with the dump of the populated document. *)
Theorem group_listing_the_site_is_denied :
  let store := PopulatedFixtures.store1 in
  let time := Fixtures.at_ 3%float in
  Charger_findById store "c2" = Normal (Some PopulatedFixtures.C2doc)
  /\ ICharger.site PopulatedFixtures.C2doc = Populated.Document PopulatedFixtures.S1
  /\ ~ privateNonBillable PopulatedFixtures.C2doc
  /\ UserGroup_find store "u1" = Normal [Fixtures.G1]
  /\ listsSite PopulatedFixtures.C2doc Fixtures.G1
  /\ Tariff_find store "c2" [IUserGroup._id Fixtures.G1] = Normal []
  /\ authorizeAndPrice store "u1" "c2" time
     = (Resolved (denied "User's groups do not have access to this site"),
        [ChargerFindById "c2"; UserGroupFind "u1"]).
Proof.
  cbv zeta. split; [reflexivity|]. split; [reflexivity|].
  split; [intros [_ H]; discriminate H|]. split; [reflexivity|].
  split; [exists (Fixtures.oid "s1"); split; [reflexivity | now left]|].
  split; reflexivity.
Qed.

(** The same documents on the two kinds of store, and with the site
    missing. *)
Example scenario_populated_site :
  decision Fixtures.store1 "u1" "c1" (Fixtures.at_ 12%float)
  = Resolved (granted Fixtures.rate030)
  /\ decision PopulatedFixtures.store1 "u1" "c1" (Fixtures.at_ 12%float)
     = Resolved (denied "User's groups do not have access to this site")
  /\ authorizeAndPrice PopulatedFixtures.storeDangling "u1" "c1" (Fixtures.at_ 12%float)
     = (Resolved systemError,
        [ChargerFindById "c1"; UserGroupFind "u1";
         ConsoleError (TypeError "Cannot read properties of null (reading 'toString')")])
  /\ decision PopulatedFixtures.storeDangling "u4" "c3" (Fixtures.at_ 12%float)
     = Resolved (granted zero).
Proof. repeat split. Qed.

(** ** The lowest rate, when it is granted *)

Lemma find_some_exists {A} (p : A -> bool) (xs : list A) x :
  In x xs -> p x = true -> exists y, find p xs = Some y.
Proof.
  intros Hin Hp. destruct (find p xs) as [y|] eqn:E; [eauto|].
  rewrite (find_none p xs E x Hin) in Hp. discriminate.
Qed.

(** X7: when the time rules leave the base rate of the first tariff
    unchanged, or lower it, and no effective rate is NaN, the grant is at the
    minimum of the effective rates of the applicable tariffs: at a rate that
    is the effective rate of one of them and is at or below the effective
    rate of each; it is equal, as a number, to [lowestEffectiveRate]. *)
Theorem lowest_rate_unless_first_surcharged
      store userId chargerId time charger userGroups first rest :
  Charger_findById store chargerId = Normal (Some charger) ->
  ~ privateNonBillable charger ->
  UserGroup_find store userId = Normal userGroups ->
  (exists group, In group userGroups /\ siteAccessible charger group) ->
  Tariff_find store chargerId (map IUserGroup._id (authorizedGroups charger userGroups))
  = Normal (first :: rest) ->
  effectiveRate first time = ITariff.ratePerKwh first
  \/ lt (effectiveRate first time) (ITariff.ratePerKwh first) = true ->
  (forall tariff, In tariff (first :: rest) -> ~ isNaN (effectiveRate tariff time)) ->
  exists rate,
    decision store userId chargerId time = Resolved (granted rate)
    /\ (exists tariff, In tariff (first :: rest) /\ rate = effectiveRate tariff time)
    /\ (forall tariff, In tariff (first :: rest) ->
                       PrimFloat.leb rate (effectiveRate tariff time) = true)
    /\ exists lowest,
        lowestEffectiveRate time (first :: rest) = Some lowest
        /\ PrimFloat.eqb rate lowest = true.
Proof.
  intros Hc Hp Hg Hacc Ht Hfirst Hnum. apply isPrivateNonBillable_false in Hp.
  apply authorizedGroups_nonempty in Hacc.
  assert (Hu : userGroups <> []).
  { intros ->. now apply Hacc. }
  set (rate := fold_left (keepLowest time) (first :: rest) (ITariff.ratePerKwh first)).
  assert (Hcand : exists tariff, In tariff (first :: rest) /\ rate = effectiveRate tariff time).
  { unfold rate. cbn [fold_left]. unfold keepLowest at 2.
    destruct Hfirst as [Hsame|Hlower].
    - rewrite Hsame, NumberFacts.lt_irrefl.
      destruct (bestRate_origin time rest (ITariff.ratePerKwh first)) as [->|[t [Hin ->]]].
      + exists first. split; [now left | now symmetry].
      + exists t. split; [now right | reflexivity].
    - rewrite Hlower.
      destruct (bestRate_origin time rest (effectiveRate first time)) as [->|[t [Hin ->]]].
      + exists first. split; [now left | reflexivity].
      + exists t. split; [now right | reflexivity]. }
  assert (Hlow : forall tariff, In tariff (first :: rest) ->
                                PrimFloat.leb rate (effectiveRate tariff time) = true).
  { intros tariff Hin. apply NumberEdge.leb_total.
    - destruct Hcand as [t [Ht' ->]]. now apply Hnum.
    - now apply Hnum.
    - now apply bestRate_lower_bound. }
  exists rate. split; [|split; [exact Hcand|split; [exact Hlow|]]].
  - unfold decision, authorizeAndPrice, tryBlock, bind, await, lift.
    rewrite Hc, Hp, Hg, (length_nonempty _ Hu),
      (authorizedGroups_completes _ _ Hacc), (length_nonempty _ Hacc), Ht.
    reflexivity.
  - unfold lowestEffectiveRate.
    set (rates := map (fun tariff => effectiveRate tariff time) (first :: rest)).
    assert (Hin : In rate rates).
    { destruct Hcand as [t [Ht' ->]]. unfold rates.
      now apply (in_map (fun tariff => effectiveRate tariff time)). }
    assert (Hall : forallb (fun r => PrimFloat.leb rate r) rates = true).
    { apply forallb_forall. intros r Hr. unfold rates in Hr.
      apply in_map_iff in Hr as [t [<- Ht']]. now apply Hlow. }
    destruct (find_some_exists
                (fun candidate => forallb (fun r => PrimFloat.leb candidate r) rates)
                rates rate Hin Hall) as [lowest Hfind].
    exists lowest. split; [exact Hfind|].
    apply find_some in Hfind as [Hl Hbelow].
    rewrite forallb_forall in Hbelow, Hall.
    apply NumberEdge.leb_antisym; [now apply Hall | now apply Hbelow].
Qed.

Lemma lowest_rate_unless_first_surcharged_witness :
  exists rate,
    decision Fixtures.store1 "u2" "c1" (Fixtures.at_ 3%float) = Resolved (granted rate)
    /\ (exists tariff,
          In tariff [Fixtures.T1; Fixtures.T2]
          /\ rate = effectiveRate tariff (Fixtures.at_ 3%float))
    /\ (forall tariff,
          In tariff [Fixtures.T1; Fixtures.T2] ->
          PrimFloat.leb rate (effectiveRate tariff (Fixtures.at_ 3%float)) = true)
    /\ exists lowest,
        lowestEffectiveRate (Fixtures.at_ 3%float) [Fixtures.T1; Fixtures.T2] = Some lowest
        /\ PrimFloat.eqb rate lowest = true.
Proof.
  apply (lowest_rate_unless_first_surcharged
           Fixtures.store1 "u2" "c1" (Fixtures.at_ 3%float) Fixtures.C1
           [Fixtures.G1; Fixtures.G2] Fixtures.T1 [Fixtures.T2]).
  - reflexivity.
  - intros [H _]. discriminate H.
  - reflexivity.
  - exists Fixtures.G1. split; [now left|].
    exists (Fixtures.oid "s1"). split; [now left | reflexivity].
  - reflexivity.
  - left. reflexivity.
  - intros tariff [<-|[<-|[]]] H; vm_compute in H; discriminate H.
Defined.
